(** * Profiler: session recorder and scoped measurements

    A shallow embedding of [include/Profiler.hpp]: the [Profiler] singleton
    (its output stream, its current-session pointer), the serialisation done
    by [WriteProfile], and the [ProfilerScope] guard.

    Conventions.
    - Every member function of [Profiler] holds [m_Mutex] for the whole of its
      critical section, so each call is one atomic step on the state.
    - [std::ofstream] is modelled by the path it is attached to and its error
      bits; the bytes of a file are the bytes flushed to it (every insertion
      in the source is followed by [flush()] before the lock is released).
    - Writing to an open file succeeds, and nothing but the recorder touches
      the files.
    - [new]/[delete] act on a heap of live [ProfilerSession] objects.
    - [std::steady_clock] counts signed 64-bit nanoseconds; a [double] is a
      binary64 value ([spec_float]) with the sign bit of a NaN beside it. *)

From Stdlib Require Import ZArith String Ascii List Lia.
From Stdlib Require Import Floats.SpecFloat.
From stdpp Require Import base option gmap strings pretty.

Local Open Scope string_scope.
Local Open Scope list_scope.
Local Open Scope Z_scope.

(** ** Exceptions *)

(** [class ProfileException : std::runtime_error]; [what] is the message. *)
Record ProfileException := { what : string }.

(** The three messages the source throws.  The specification calls them
    SessionAlreadyOpenError, SinkOpenError and NoActiveSessionError. *)
Definition SessionAlreadyOpenError (existing : string) : ProfileException :=
  {| what := "Profiling session already opened: " +:+ existing |}.
Definition SinkOpenError (filePath : string) : ProfileException :=
  {| what := "Could not open file: " +:+ filePath |}.
Definition NoActiveSessionError : ProfileException :=
  {| what := "No opened profiling session!" |}.

(** ** Sessions, streams and the recorder state *)

(** [class ProfilerSession { std::string Name; }] *)
Record ProfilerSession := { Session_Name : string }.

(** [std::ofstream]: the file it is attached to ([None] when closed) and the
    two error bits an output stream can raise. *)
Record ofstream := {
  attached : option string;
  failbit : bool;
  badbit : bool
}.

Definition is_open (o : ofstream) : bool :=
  match attached o with Some _ => true | None => false end.

Definition good (o : ofstream) : bool := negb (failbit o) && negb (badbit o).

(** Addresses of heap objects. *)
Abbreviation ptr := positive (only parsing).

(** The [Profiler] object together with the part of the process it acts on:
    the live [ProfilerSession] objects and the files. *)
Record State := {
  m_OutStream : ofstream;
  m_CurrentSession : option ptr;            (* [None] is [nullptr] *)
  heap : gmap positive ProfilerSession;     (* objects made by [new] *)
  fs : gmap string string                   (* path |-> bytes *)
}.

Definition set_stream (o : ofstream) (s : State) : State :=
  {| m_OutStream := o; m_CurrentSession := m_CurrentSession s;
     heap := heap s; fs := fs s |}.
Definition set_fs (f : gmap string string) (s : State) : State :=
  {| m_OutStream := m_OutStream s; m_CurrentSession := m_CurrentSession s;
     heap := heap s; fs := f |}.
Definition set_session (p : option ptr) (s : State) : State :=
  {| m_OutStream := m_OutStream s; m_CurrentSession := p;
     heap := heap s; fs := fs s |}.
Definition set_heap (h : gmap positive ProfilerSession) (s : State) : State :=
  {| m_OutStream := m_OutStream s; m_CurrentSession := m_CurrentSession s;
     heap := h; fs := fs s |}.

(** [Profiler() : m_CurrentSession{nullptr}]: a default-constructed stream,
    no session, no session object; [files] is the file system found. *)
Definition Profiler_ctor (files : gmap string string) : State :=
  {| m_OutStream := {| attached := None; failbit := false; badbit := false |};
     m_CurrentSession := None;
     heap := ∅;
     fs := files |}.

(** ** A monad for member functions: state, exceptions, undefined behaviour *)

Inductive result (A : Type) : Type :=
| Ok (a : A)
| Throw (e : ProfileException)
| Undefined.
Arguments Ok {A} a.
Arguments Throw {A} e.
Arguments Undefined {A}.

Definition M (A : Type) : Type := State -> result A * State.

Definition ret {A} (a : A) : M A := fun s => (Ok a, s).
Definition throw {A} (e : ProfileException) : M A := fun s => (Throw e, s).
Definition undefined {A} : M A := fun s => (Undefined, s).
Definition bind {A B} (m : M A) (k : A -> M B) : M B :=
  fun s => match m s with
           | (Ok a, s') => k a s'
           | (Throw e, s') => (Throw e, s')
           | (Undefined, s') => (Undefined, s')
           end.
Definition gets {A} (f : State -> A) : M A := fun s => (Ok (f s), s).
Definition modify (f : State -> State) : M unit := fun s => (Ok tt, f s).

Notation "x <- m ;; k" := (bind m (fun x => k))
  (at level 100, m at next level, right associativity).
Notation "m ;;; k" := (bind m (fun _ => k))
  (at level 100, right associativity).

(** [*p] on a session pointer: undefined when [p] is not live. *)
Definition deref (p : ptr) : M ProfilerSession :=
  fun s => match heap s !! p with
           | Some v => ret v s
           | None => undefined s
           end.

(** [new ProfilerSession{name}]: a fresh address. *)
Definition new_session (name : string) : M ptr :=
  fun s => let p := fresh (dom (heap s)) in
           (Ok p, set_heap (<[p := {| Session_Name := name |}]> (heap s)) s).

(** [delete p]: undefined when [p] is not live. *)
Definition delete_session (p : ptr) : M unit :=
  fun s => match heap s !! p with
           | Some _ => modify (set_heap (delete p (heap s))) s
           | None => undefined s
           end.

(** ** [std::ofstream] operations on [m_OutStream] *)

Section Environment.

(** Whether the operating system lets this path be opened for writing. *)
Variable openable : string -> bool.

(** [m_OutStream.open(filePath)] (mode [out], which truncates).  On an open
    stream it fails and sets [failbit]; on success it clears the error bits. *)
Definition ofstream_open (filePath : string) : M unit :=
  modify (fun s =>
    let o := m_OutStream s in
    match attached o with
    | Some _ =>
        set_stream {| attached := attached o; failbit := true; badbit := badbit o |} s
    | None =>
        if openable filePath then
          set_fs (<[filePath := ""]> (fs s))
            (set_stream {| attached := Some filePath; failbit := false; badbit := false |} s)
        else
          set_stream {| attached := None; failbit := true; badbit := badbit o |} s
    end).

(** [m_OutStream << text; m_OutStream.flush();]  Nothing is written unless the
    stream is good; writing to a closed buffer sets [badbit]. *)
Definition ofstream_write (text : string) : M unit :=
  modify (fun s =>
    let o := m_OutStream s in
    if good o then
      match attached o with
      | Some path =>
          set_fs (<[path := default "" (fs s !! path) +:+ text]> (fs s)) s
      | None =>
          set_stream {| attached := None; failbit := failbit o; badbit := true |} s
      end
    else s).

(** [m_OutStream.close()]: sets [failbit] when the stream was not open. *)
Definition ofstream_close : M unit :=
  modify (fun s =>
    let o := m_OutStream s in
    match attached o with
    | Some _ =>
        set_stream {| attached := None; failbit := failbit o; badbit := badbit o |} s
    | None =>
        set_stream {| attached := None; failbit := true; badbit := badbit o |} s
    end).

(** ** [Profiler] member functions *)

(** The double-quote character, for the string literals of the source. *)
Definition dquote : string := String (ascii_of_nat 34) EmptyString.

(** [WriteHeader()] writes the raw literal
    [{ dq otherData dq : {}, dq traceEvents dq :[{}] (dq the double quote). *)
Definition header : string :=
  "{" +:+ dquote +:+ "otherData" +:+ dquote +:+ ": {},"
      +:+ dquote +:+ "traceEvents" +:+ dquote +:+ ":[{}".
Definition footer : string := "]}".

Definition WriteHeader : M unit := ofstream_write header.
Definition WriteFooter : M unit := ofstream_write footer.

(** [EndSessionNoLock_()] *)
Definition EndSessionNoLock_ : M unit :=
  cur <- gets m_CurrentSession ;;
  match cur with
  | Some p =>
      WriteFooter ;;;
      ofstream_close ;;;
      delete_session p ;;;
      modify (set_session None)
  | None => ret tt
  end.

(** [EndSession()]: takes the lock and calls [EndSessionNoLock_]. *)
Definition EndSession : M unit := EndSessionNoLock_.

(** [BeginSession(name, filePath)].  The call to [EndSessionNoLock_] that
    follows the first [throw] in the source is dead code: control has left
    the function. *)
Definition BeginSession (name filePath : string) : M unit :=
  cur <- gets m_CurrentSession ;;
  match cur with
  | Some p =>
      existing <- deref p ;;
      throw (SessionAlreadyOpenError (Session_Name existing))
  | None => ret tt
  end ;;;
  ofstream_open filePath ;;;
  opened <- gets (fun s => is_open (m_OutStream s)) ;;
  (if negb opened then throw (SinkOpenError filePath) else ret tt) ;;;
  p <- new_session name ;;
  modify (set_session (Some p)) ;;;
  WriteHeader.

(** [BeginSession(name)]: the default argument. *)
Definition BeginSession_default (name : string) : M unit :=
  BeginSession name "result.json".

End Environment.

(** ** Formatted output: the [std::stringstream] of [WriteProfile] *)

(** [operator<<(long)]: decimal digits, a minus sign when negative.  The
    precision and the float notation of the stream do not apply to integers. *)
Definition put_long (z : Z) : string := pretty z.

(** [p] decimal digits of [k], most significant first, zero padded. *)
Fixpoint frac_digits (p : nat) (k : N) : string :=
  match p with
  | O => EmptyString
  | S p' => frac_digits p' (k / 10)%N +:+ String (pretty_N_char (k mod 10)%N) EmptyString
  end.

(** [num / den] rounded to the nearest integer, ties to even. *)
Definition round_half_even (num den : N) : N :=
  let q := (num / den)%N in
  match (2 * (num mod den) ?= den)%N with
  | Lt => q
  | Gt => (q + 1)%N
  | Eq => if N.even q then q else (q + 1)%N
  end.

(** [m * 2^e * 10^p] as an integer, rounded when [e] is negative. *)
Definition scaled (p : nat) (m : positive) (e : Z) : N :=
  match e with
  | Z0 => (Npos m * 10 ^ N.of_nat p)%N
  | Zpos k => (Npos m * 10 ^ N.of_nat p * 2 ^ Npos k)%N
  | Zneg k => round_half_even (Npos m * 10 ^ N.of_nat p) (2 ^ Npos k)
  end.

Definition sign_text (s : bool) : string := if s then "-" else EmptyString.

(** The digits of [n / 10^p], and [p] digits after the point when [p > 0]. *)
Definition fixed_text (p : nat) (n : N) : string :=
  pretty (n / 10 ^ N.of_nat p)%N +:+
  match p with
  | O => EmptyString
  | S _ => "." +:+ frac_digits p (n mod 10 ^ N.of_nat p)%N
  end.

(** A [double]: a binary64 value.  [spec_float] has a single NaN; a NaN of
    the machine also has a sign bit, which printing shows, so it is kept
    beside the value.  [nan_sign] is read for a NaN only. *)
Record double := {
  binary64 : spec_float;
  nan_sign : bool
}.

(** [operator<<(double)] in [std::fixed] notation with precision [p]:
    what [printf] prints for [%.pf]. *)
Definition put_fixed (p : nat) (x : double) : string :=
  match binary64 x with
  | S754_nan => sign_text (nan_sign x) +:+ "nan"
  | S754_infinity s => sign_text s +:+ "inf"
  | S754_zero s => sign_text s +:+ fixed_text p 0
  | S754_finite s m e => sign_text s +:+ fixed_text p (scaled p m e)
  end.

(** The stream [json]: its buffer and its precision.  The source selects
    [std::fixed] before the first insertion and never changes it, so doubles
    are inserted in fixed notation. *)
Record stringstream := { str : string; precision : nat }.

Definition stringstream_ctor : stringstream := {| str := EmptyString; precision := 6 |}.
Definition setprecision (p : nat) (o : stringstream) : stringstream :=
  {| str := str o; precision := p |}.
Definition fixed (o : stringstream) : stringstream := o.
Definition insert_text (t : string) (o : stringstream) : stringstream :=
  {| str := str o +:+ t; precision := precision o |}.
Definition insert_char (c : ascii) (o : stringstream) : stringstream :=
  insert_text (String c EmptyString) o.
Definition insert_long (z : Z) (o : stringstream) : stringstream :=
  insert_text (put_long z) o.
Definition insert_double (x : double) (o : stringstream) : stringstream :=
  insert_text (put_fixed (precision o) x) o.

Notation "o <<< t" := (insert_text t o) (at level 67, left associativity).
Notation "o <<c c" := (insert_char c o) (at level 67, left associativity).
Notation "o <<l z" := (insert_long z o) (at level 67, left associativity).
Notation "o <<d x" := (insert_double x o) (at level 67, left associativity).

(** ** Events and [WriteProfile] *)

Section Recorder.

(** [std::thread::id] and its [operator<<], which the C++ library defines. *)
Context {thread_id : Type}.
Variable print_thread_id : thread_id -> string.

(** [struct ProfileResult]: [Start] is a [double] count of microseconds,
    [Elapsed] a signed 64-bit count of microseconds. *)
Record ProfileResult := {
  Name : string;
  Start : double;
  Elapsed : Z;
  ThreadId : thread_id
}.

(** The text [WriteProfile] builds in [json] before it takes the lock. *)
Definition WriteProfile_json (r : ProfileResult) : string :=
  str (fixed (setprecision 3 stringstream_ctor)
       <<< ",{"
       <<< dquote +:+ "cat" +:+ dquote +:+ ":" +:+ dquote +:+ "function" +:+ dquote +:+ ","
       <<< dquote +:+ "dur" +:+ dquote +:+ ":" <<l Elapsed r <<c ","
       <<< dquote +:+ "name" +:+ dquote +:+ ":" +:+ dquote <<< Name r <<< dquote +:+ ","
       <<< dquote +:+ "ph" +:+ dquote +:+ ":" +:+ dquote +:+ "X" +:+ dquote +:+ ","
       <<< dquote +:+ "pid" +:+ dquote +:+ ":0,"
       <<< dquote +:+ "tid" +:+ dquote +:+ ":" <<< print_thread_id (ThreadId r) <<< ","
       <<< dquote +:+ "ts" +:+ dquote +:+ ":" <<d Start r
       <<< "}").

(** [WriteProfile(result)] *)
Definition WriteProfile (r : ProfileResult) : M unit :=
  let json := WriteProfile_json r in
  cur <- gets m_CurrentSession ;;
  match cur with
  | None => throw NoActiveSessionError
  | Some _ => ofstream_write json
  end.

(** ** [ProfilerScope] *)

(** A [steady_clock::time_point] is a signed 64-bit count of nanoseconds
    since the clock's epoch. *)
Definition int64 (z : Z) : Prop := - 2 ^ 63 <= z < 2 ^ 63.
Definition wrap64 (z : Z) : Z := (z + 2 ^ 63) mod 2 ^ 64 - 2 ^ 63.

Record ProfilerScope := {
  m_Name : string;
  m_Start : Z
}.

(** [ProfilerScope(name)]: [now] is what [steady_clock::now()] returns. *)
Definition ProfilerScope_ctor (name : string) (now : Z) : ProfilerScope :=
  {| m_Name := name; m_Start := now |}.

(** [time_point_cast<microseconds>(t).time_since_epoch()]: the integer
    conversion truncates toward zero. *)
Definition time_point_cast_microseconds (t : Z) : Z := Z.quot t 1000.

Definition double_of_Z (z : Z) : spec_float := binary_normalize 53 1024 z 0 false.

(** [duration<double, std::micro>{ t.time_since_epoch() }]: the count as a
    double, divided by the double 1000. *)
Definition duration_double_micro (t : Z) : double :=
  {| binary64 := SFdiv 53 1024 (double_of_Z t) (double_of_Z 1000);
     nan_sign := false |}.

(** The [ProfileResult] that [Stop()] passes to [WriteProfile]; [endTime] is
    what [steady_clock::now()] returns and [self] is
    [std::this_thread::get_id()]. *)
Definition Stop_result (self : thread_id) (g : ProfilerScope) (endTime : Z)
  : ProfileResult :=
  let highResStart := duration_double_micro (m_Start g) in
  let elapsed :=
    wrap64 (time_point_cast_microseconds endTime
            - time_point_cast_microseconds (m_Start g)) in
  {| Name := m_Name g; Start := highResStart; Elapsed := elapsed;
     ThreadId := self |}.

(** How control leaves a region of host code. *)
Inductive exit :=
| Normal
| EarlyReturn
| Exception (msg : string)
| Terminate.

(** A region of host code: the events it passes to [WriteProfile], in
    order; how it is left; the state it leaves. *)
Definition region : Type := State -> list ProfileResult * exit * State.

(** A call [Profiler::GetInstance().WriteProfile(r)] made by host code. *)
Definition call_WriteProfile (r : ProfileResult) : region :=
  fun s =>
    match WriteProfile r s with
    | (Ok _, s') => ([r], Normal, s')
    | (Throw e, s') => ([r], Exception (what e), s')
    | (Undefined, s') => ([r], Terminate, s')
    end.

(** [Stop()] *)
Definition Stop (self : thread_id) (g : ProfilerScope) (endTime : Z) : region :=
  call_WriteProfile (Stop_result self g endTime).

(** [~ProfilerScope() { Stop(); }] *)
Definition ProfilerScope_dtor (self : thread_id) (g : ProfilerScope)
    (endTime : Z) : region :=
  Stop self g endTime.

(** The rule for an automatic object: its destructor runs when control
    leaves the block, whichever way.  Destructors are [noexcept], so a
    destructor that does not return normally ends the program; a region that
    already ended the program runs no destructor. *)
Definition at_scope_exit (body dtor : region) : region :=
  fun s =>
    let '(submitted, how, s1) := body s in
    match how with
    | Terminate => (submitted, Terminate, s1)
    | _ =>
        let '(more, how_dtor, s2) := dtor s1 in
        (submitted ++ more,
         match how_dtor with Normal => how | _ => Terminate end,
         s2)
    end.

(** A block [{ ProfilerScope scope{name}; body }]; [t0] and [t1] are the
    clock readings at construction and in [Stop()]. *)
Definition ProfilerScope_block (self : thread_id) (name : string)
    (t0 t1 : Z) (body : region) : region :=
  let guard := ProfilerScope_ctor name t0 in
  at_scope_exit body (ProfilerScope_dtor self guard t1).

(** ** Sequences of calls *)

Variable openable : string -> bool.

Inductive call :=
| CallBegin (name filePath : string)
| CallWrite (r : ProfileResult)
| CallEnd.

Definition perform (c : call) : M unit :=
  match c with
  | CallBegin name filePath => BeginSession openable name filePath
  | CallWrite r => WriteProfile r
  | CallEnd => EndSession
  end.

(** The calls in order, each with its outcome; an exception is caught by the
    host, which goes on. *)
Fixpoint run (cs : list call) (s : State) : list (result unit) * State :=
  match cs with
  | [] => ([], s)
  | c :: cs' =>
      let '(r, s1) := perform c s in
      let '(rs, s2) := run cs' s1 in
      (r :: rs, s2)
  end.

(** States of a [Profiler] made by its constructor and used through its
    three member functions. *)
Inductive reachable : State -> Prop :=
| reachable_ctor files : reachable (Profiler_ctor files)
| reachable_call c s :
    reachable s -> fst (perform c s) <> Undefined -> reachable (snd (perform c s)).

(** The session object [m_CurrentSession] points to. *)
Definition current_session (s : State) : option ProfilerSession :=
  match m_CurrentSession s with
  | Some p => heap s !! p
  | None => None
  end.

(** Number of live session objects. *)
Definition open_sessions (s : State) : nat := size (heap s).

(** What holds of every reachable state. *)
Definition Inv (s : State) : Prop :=
  match m_CurrentSession s with
  | Some p =>
      (exists sess, heap s = {[ p := sess ]}) /\
      (exists path, attached (m_OutStream s) = Some path /\
                    is_Some (fs s !! path)) /\
      good (m_OutStream s) = true
  | None => heap s = ∅ /\ attached (m_OutStream s) = None
  end.

End Recorder.

(** The records of a list of events, in order. *)
Definition records {thread_id : Type} (print_thread_id : thread_id -> string)
    (rs : list (@ProfileResult thread_id)) : string :=
  foldr (fun r acc => WriteProfile_json print_thread_id r +:+ acc) EmptyString rs.

(** ** Shapes of number texts *)

Definition is_digit (c : ascii) : bool :=
  ((48 <=? N_of_ascii c) && (N_of_ascii c <=? 57))%N.

Fixpoint all_digits (s : string) : bool :=
  match s with
  | EmptyString => true
  | String c s' => is_digit c && all_digits s'
  end.

Definition nonempty (s : string) : bool :=
  match s with EmptyString => false | String _ _ => true end.

(** The text before and after the first point, when there is one. *)
Fixpoint split_at_dot (s : string) : option (string * string) :=
  match s with
  | EmptyString => None
  | String c s' =>
      if Ascii.eqb c "." then Some (EmptyString, s')
      else match split_at_dot s' with
           | Some (a, b) => Some (String c a, b)
           | None => None
           end
  end.

Definition strip_sign (s : string) : string :=
  match s with
  | String c s' => if Ascii.eqb c "-" then s' else s
  | EmptyString => s
  end.

(** An optional minus sign and one or more digits. *)
Definition integer_text (s : string) : bool :=
  nonempty (strip_sign s) && all_digits (strip_sign s).

(** Fixed-point with [p] decimals: an optional minus sign, one or more
    digits, a point, exactly [p] digits. *)
Definition fixed_decimals (p : nat) (s : string) : bool :=
  match split_at_dot (strip_sign s) with
  | Some (ip, fp) =>
      nonempty ip && all_digits ip && all_digits fp && (String.length fp =? p)%nat
  | None => false
  end.

Definition is_finite (x : double) : bool :=
  match binary64 x with
  | S754_zero _ | S754_finite _ _ _ => true
  | S754_infinity _ | S754_nan => false
  end.

(** ** The record layout *)

(** [key k] is the quoted key and its colon; [quoted v] a quoted value. *)
Definition key (k : string) : string := dquote +:+ k +:+ dquote +:+ ":".
Definition quoted (v : string) : string := dquote +:+ v +:+ dquote.

(** A comma-prefixed object with the seven fields, given the texts of
    [dur], [tid] and [ts]. *)
Definition record_layout (dur name tid ts : string) : string :=
  "," +:+ "{" +:+ key "cat" +:+ quoted "function" +:+ ","
      +:+ key "dur" +:+ dur +:+ ","
      +:+ key "name" +:+ quoted name +:+ ","
      +:+ key "ph" +:+ quoted "X" +:+ ","
      +:+ key "pid" +:+ "0" +:+ ","
      +:+ key "tid" +:+ tid +:+ ","
      +:+ key "ts" +:+ ts +:+ "}".

(** An integer count written in fixed notation with [p] decimals. *)
Definition put_fixed_Z (p : nat) (z : Z) : string :=
  sign_text (z <? 0) +:+ fixed_text p (Z.abs_N z * 10 ^ N.of_nat p)%N.

(** The record as the specification words it: [dur] in fixed-point with
    three decimals, like [ts]. *)
Definition spec_json {thread_id : Type} (print_thread_id : thread_id -> string)
    (r : @ProfileResult thread_id) : string :=
  record_layout (put_fixed_Z 3 (Elapsed r)) (Name r)
    (print_thread_id (ThreadId r)) (put_fixed 3 (Start r)).

(** ** The document layout *)

(** The header as the format spells it: an object with an empty otherData
    and a traceEvents array that opens with an empty placeholder object. *)
Definition format_header : string :=
  "{" +:+ quoted "otherData" +:+ ": {}," +:+ quoted "traceEvents" +:+ ":[{}".

(** The record of one event in the layout, [dur] as a decimal integer and
    [ts] in fixed notation with three decimals. *)
Definition format_record {thread_id : Type} (print_thread_id : thread_id -> string)
    (r : @ProfileResult thread_id) : string :=
  record_layout (put_long (Elapsed r)) (Name r)
    (print_thread_id (ThreadId r)) (put_fixed 3 (Start r)).

Definition format_records {thread_id : Type} (print_thread_id : thread_id -> string)
    (rs : list (@ProfileResult thread_id)) : string :=
  foldr (fun r acc => format_record print_thread_id r +:+ acc) EmptyString rs.

(** The document as the specification words it: the header, each event's
    record with [dur] in fixed-point with three decimals, the footer. *)
Definition spec_document {thread_id : Type} (print_thread_id : thread_id -> string)
    (rs : list (@ProfileResult thread_id)) : string :=
  format_header
  +:+ foldr (fun r acc => spec_json print_thread_id r +:+ acc) EmptyString rs
  +:+ "]}".

(** ** Whole sessions and what a run leaves in the sink *)

Section Sessions.

Context {thread_id : Type}.
Variable print_thread_id : thread_id -> string.
Variable openable : string -> bool.

(** The events of the [WriteProfile] calls of a run, in order. *)
Definition written_events (cs : list (@call thread_id)) : list (@ProfileResult thread_id) :=
  flat_map (fun c => match c with CallWrite r => [r] | _ => [] end) cs.

Definition is_end (c : @call thread_id) : bool :=
  match c with CallEnd => true | _ => false end.

(** What a call returns while the session named [existing] stays open. *)
Definition open_outcome (existing : string) (c : @call thread_id) : result unit :=
  match c with
  | CallBegin _ _ => Throw (SessionAlreadyOpenError existing)
  | _ => Ok tt
  end.

(** The file a call may write to: the destination for [BeginSession], the
    file the stream is attached to for the others. *)
Definition target (c : @call thread_id) (s : State) : option string :=
  match c with
  | CallBegin _ filePath => Some filePath
  | _ => attached (m_OutStream s)
  end.

(** One whole session, and the document it leaves. *)
Definition session_calls (name filePath : string)
    (rs : list (@ProfileResult thread_id)) : list (@call thread_id) :=
  CallBegin name filePath :: map CallWrite rs ++ [CallEnd].

Definition document (rs : list (@ProfileResult thread_id)) : string :=
  header +:+ records print_thread_id rs +:+ footer.

(** A region that does nothing and is left normally. *)
Definition empty_region : @region thread_id := fun s => ([], Normal, s).

(** ** The singleton *)









End Sessions.

(** ** A concrete thread library, for examples *)

(** Thread ids that are native handles, printed in decimal. *)
Definition print_native_handle (tid : N) : string := pretty tid.

(** A system that refuses one path, a fresh recorder, a recorder with the
    session S open on out.json, and two events. *)
Definition example_openable (path : string) : bool :=
  negb (String.eqb path "/no/such/dir/out.json").

Definition example_idle : State := Profiler_ctor ∅.

Definition example_open : State :=
  snd (perform print_native_handle example_openable
         (CallBegin "S" "out.json") example_idle).

Definition example_event : @ProfileResult N :=
  {| Name := "work"; Start := duration_double_micro 1234567;
     Elapsed := 5000; ThreadId := 7%N |}.

Definition example_event' : @ProfileResult N :=
  {| Name := "idle"; Start := duration_double_micro 9000001;
     Elapsed := 0; ThreadId := 8%N |}.

(** An event whose start is the double infinity. *)
Definition example_event_inf : @ProfileResult N :=
  {| Name := "late";
     Start := {| binary64 := S754_infinity false; nan_sign := false |};
     Elapsed := 1; ThreadId := 7%N |}.

(** A region that submits nothing and is left by an exception. *)
Definition example_throwing_region : @region N :=
  fun s => ([], Exception "boom", s).

(** * Properties *)

(** ** Number texts *)

Lemma append_assoc (a b c : string) : (a +:+ b) +:+ c = a +:+ (b +:+ c).
Proof.
  induction a as [| x a IH]; [reflexivity |].
  change (String x ((a +:+ b) +:+ c) = String x (a +:+ (b +:+ c))).
  now rewrite IH.
Qed.

Lemma append_nil_r (a : string) : a +:+ EmptyString = a.
Proof.
  induction a as [| x a IH]; [reflexivity |].
  change (String x (a +:+ EmptyString) = String x a). now rewrite IH.
Qed.

Lemma append_cons (c : ascii) (a b : string) :
  String c a +:+ b = String c (a +:+ b).
Proof. reflexivity. Qed.

Lemma all_digits_app a b :
  all_digits (a +:+ b) = all_digits a && all_digits b.
Proof.
  induction a as [| c a IH]; [reflexivity |].
  rewrite append_cons. cbn [all_digits]. now rewrite IH, andb_assoc.
Qed.

Lemma length_app a b :
  String.length (a +:+ b) = (String.length a + String.length b)%nat.
Proof.
  induction a as [| c a IH]; [reflexivity |].
  rewrite append_cons. cbn [String.length]. now rewrite IH.
Qed.

Lemma is_digit_pretty_N_char d : is_digit (pretty_N_char d) = true.
Proof. unfold pretty_N_char. repeat case_match; reflexivity. Qed.

Lemma is_digit_not_dot c : is_digit c = true -> Ascii.eqb c "." = false.
Proof.
  intros H. destruct (Ascii.eqb_spec c "."%char) as [-> |]; [discriminate | reflexivity].
Qed.

Lemma is_digit_not_minus c : is_digit c = true -> Ascii.eqb c "-" = false.
Proof.
  intros H. destruct (Ascii.eqb_spec c "-"%char) as [-> |]; [discriminate | reflexivity].
Qed.

(** The digit loop of [pretty] only ever puts digits in front. *)
Lemma all_digits_pretty_N_go x : forall s,
  all_digits s = true -> all_digits (pretty_N_go x s) = true.
Proof.
  induction (N.lt_wf_0 x) as [x _ IH]. intros s Hs.
  destruct (decide (0 < x)%N) as [Hpos | Hz].
  - rewrite pretty_N_go_step by exact Hpos.
    apply IH; [now apply N.div_lt |].
    cbn [all_digits]. now rewrite is_digit_pretty_N_char.
  - replace x with 0%N by lia. exact Hs.
Qed.

Lemma nonempty_pretty_N_go x : forall s,
  nonempty s = true -> nonempty (pretty_N_go x s) = true.
Proof.
  induction (N.lt_wf_0 x) as [x _ IH]. intros s Hs.
  destruct (decide (0 < x)%N) as [Hpos | Hz].
  - rewrite pretty_N_go_step by exact Hpos.
    apply IH; [now apply N.div_lt | reflexivity].
  - replace x with 0%N by lia. exact Hs.
Qed.

Lemma all_digits_pretty_N (n : N) : all_digits (pretty n) = true.
Proof.
  unfold pretty, pretty_N. case_decide; [reflexivity |].
  now apply all_digits_pretty_N_go.
Qed.

Lemma nonempty_pretty_N (n : N) : nonempty (pretty n) = true.
Proof.
  unfold pretty, pretty_N. case_decide as Hn; [reflexivity |].
  rewrite pretty_N_go_step by lia. now apply nonempty_pretty_N_go.
Qed.

Lemma frac_digits_shape p : forall k,
  all_digits (frac_digits p k) = true /\ String.length (frac_digits p k) = p.
Proof.
  induction p as [| p IH]; intros k; cbn [frac_digits]; [now split |].
  destruct (IH (k / 10)%N) as [Hd Hl].
  rewrite all_digits_app, length_app, Hd, Hl. cbn [all_digits String.length].
  rewrite is_digit_pretty_N_char. split; [reflexivity | lia].
Qed.

Lemma split_at_dot_digits a : all_digits a = true -> split_at_dot a = None.
Proof.
  induction a as [| c a IH]; [reflexivity |].
  cbn [all_digits split_at_dot]. intros [Hc Ha]%andb_true_iff.
  now rewrite (is_digit_not_dot c Hc), (IH Ha).
Qed.

Lemma split_at_dot_app a b :
  all_digits a = true -> split_at_dot (a +:+ "." +:+ b) = Some (a, b).
Proof.
  induction a as [| c a IH]; [reflexivity |].
  cbn [all_digits]. intros [Hc Ha]%andb_true_iff.
  rewrite append_cons. cbn [split_at_dot].
  now rewrite (is_digit_not_dot c Hc), (IH Ha).
Qed.

Lemma strip_sign_digits a b :
  nonempty a = true -> all_digits a = true -> strip_sign (a +:+ b) = a +:+ b.
Proof.
  destruct a as [| c a]; [discriminate |].
  cbn [all_digits]. intros _ [Hc _]%andb_true_iff.
  rewrite append_cons. cbn [strip_sign]. now rewrite (is_digit_not_minus c Hc).
Qed.

Lemma strip_sign_sign_text sg a b :
  nonempty a = true -> all_digits a = true ->
  strip_sign (sign_text sg +:+ a +:+ b) = a +:+ b.
Proof.
  intros Hn Hd. destruct sg; [reflexivity |].
  change (strip_sign (a +:+ b) = a +:+ b). now apply strip_sign_digits.
Qed.

(** A number written by [fixed_text] with at least one decimal has the
    fixed-point shape, signed or not. *)
Lemma fixed_decimals_fixed_text sg p n :
  fixed_decimals (S p) (sign_text sg +:+ fixed_text (S p) n) = true.
Proof.
  unfold fixed_decimals, fixed_text.
  rewrite strip_sign_sign_text
    by (apply nonempty_pretty_N || apply all_digits_pretty_N).
  rewrite split_at_dot_app by apply all_digits_pretty_N.
  destruct (frac_digits_shape (S p) (n `mod` 10 ^ N.of_nat (S p))%N) as [Hd Hl].
  rewrite nonempty_pretty_N, all_digits_pretty_N, Hd, Hl.
  cbn [andb]. apply Nat.eqb_refl.
Qed.

(** The text of a double in fixed notation has the fixed-point shape exactly
    when the double is finite: infinities and NaN are written as words. *)
Lemma fixed_decimals_put_fixed p x :
  fixed_decimals (S p) (put_fixed (S p) x) = is_finite x.
Proof.
  destruct x as [[sg | sg | | sg m e] ns]; unfold put_fixed, is_finite;
    cbn [binary64 nan_sign].
  - apply fixed_decimals_fixed_text.
  - destruct sg; reflexivity.
  - destruct ns; reflexivity.
  - apply fixed_decimals_fixed_text.
Qed.

Lemma strip_sign_unsigned a :
  nonempty a = true -> all_digits a = true -> strip_sign a = a.
Proof.
  intros Hn Hd. rewrite <- (append_nil_r a) at 1.
  rewrite strip_sign_digits by assumption. apply append_nil_r.
Qed.

Lemma unsigned_shape (n : N) :
  integer_text (pretty n) = true /\
  forall p, fixed_decimals p (pretty n) = false.
Proof.
  unfold integer_text, fixed_decimals.
  rewrite strip_sign_unsigned
    by (apply nonempty_pretty_N || apply all_digits_pretty_N).
  rewrite nonempty_pretty_N, all_digits_pretty_N.
  rewrite split_at_dot_digits by apply all_digits_pretty_N. now split.
Qed.

(** The text of an integer is a signed digit string and has no point. *)
Lemma put_long_shape z :
  integer_text (put_long z) = true /\
  forall p, fixed_decimals p (put_long z) = false.
Proof.
  destruct z as [| x | x].
  - split; reflexivity.
  - change (put_long (Z.pos x)) with (pretty (N.pos x)). apply unsigned_shape.
  - change (put_long (Z.neg x)) with ("-" +:+ pretty (N.pos x)).
    unfold integer_text, fixed_decimals.
    change (strip_sign ("-" +:+ pretty (N.pos x))) with (pretty (N.pos x)).
    rewrite nonempty_pretty_N, all_digits_pretty_N.
    rewrite split_at_dot_digits by apply all_digits_pretty_N. now split.
Qed.

(** Rounding to nearest is within half a unit. *)
Lemma round_half_even_near num den :
  (0 < den)%N ->
  (2 * (round_half_even num den * den) <= 2 * num + den /\
   2 * num <= 2 * (round_half_even num den * den) + den)%N.
Proof.
  intros Hden. unfold round_half_even.
  pose proof (N.div_mod num den ltac:(lia)) as E.
  pose proof (N.mod_lt num den ltac:(lia)) as Hlt.
  generalize dependent (num / den)%N. generalize dependent (num mod den)%N.
  intros r Hlt q E.
  rewrite (N.mul_comm den q) in E.
  assert (Hs : ((q + 1) * den = q * den + den)%N) by lia.
  destruct (2 * r ?= den)%N eqn:C.
  - rewrite N.compare_eq_iff in C. destruct (N.even q); rewrite ?Hs; lia.
  - rewrite N.compare_lt_iff in C. lia.
  - rewrite N.compare_gt_iff in C. rewrite Hs. lia.
Qed.

(** ** Doubles made by [Stop()] are never NaN *)

Lemma shr_1_nonneg mrs : 0 <= shr_m mrs -> 0 <= shr_m (shr_1 mrs).
Proof.
  destruct mrs as [m r s]. destruct m as [| [q | q |] | q]; cbn; lia.
Qed.

Lemma iter_shr_1_nonneg n : forall mrs,
  0 <= shr_m mrs -> 0 <= shr_m (SpecFloat.iter_pos shr_1 n mrs).
Proof.
  induction n as [n IH | n IH |]; intros mrs H; cbn [SpecFloat.iter_pos].
  - apply IH, IH, shr_1_nonneg, H.
  - apply IH, IH, H.
  - apply shr_1_nonneg, H.
Qed.

Lemma shr_nonneg mrs e n : 0 <= shr_m mrs -> 0 <= shr_m (fst (shr mrs e n)).
Proof.
  intros H. destruct n; cbn [shr fst]; try exact H. now apply iter_shr_1_nonneg.
Qed.

Lemma shr_fexp_nonneg prec emax m e l :
  0 <= m -> 0 <= shr_m (fst (shr_fexp prec emax m e l)).
Proof.
  intros H. unfold shr_fexp. apply shr_nonneg.
  destruct l as [| []]; exact H.
Qed.

Lemma round_nearest_even_nonneg m l : 0 <= m -> 0 <= round_nearest_even m l.
Proof.
  intros H. destruct l as [| []]; cbn [round_nearest_even]; try exact H; [| lia].
  destruct (Z.even m); lia.
Qed.

Lemma binary_round_aux_not_nan prec emax sx mx ex lx :
  0 <= mx -> binary_round_aux prec emax sx mx ex lx <> S754_nan.
Proof.
  intros H. unfold binary_round_aux.
  pose proof (shr_fexp_nonneg prec emax mx ex lx H) as H1.
  destruct (shr_fexp prec emax mx ex lx) as [mrs' e']. cbn [fst] in H1.
  pose proof (shr_fexp_nonneg prec emax _ e' loc_Exact
                (round_nearest_even_nonneg _ (loc_of_shr_record mrs') H1)) as H2.
  destruct (shr_fexp prec emax _ e' loc_Exact) as [mrs'' e'']. cbn [fst] in H2.
  destruct (shr_m mrs'') as [| q | q]; [discriminate | | lia].
  destruct (Z.leb e'' (emax - prec)); discriminate.
Qed.

Lemma binary_normalize_not_nan prec emax m e sz :
  binary_normalize prec emax m e sz <> S754_nan.
Proof.
  destruct m as [| q | q]; cbn [binary_normalize]; [discriminate | |];
    unfold binary_round; destruct (shl_align _ _ _) as [mz ez];
    apply binary_round_aux_not_nan; lia.
Qed.

Lemma SFdiv_core_binary_nonneg prec emax m1 e1 m2 e2 :
  0 < m1 -> 0 < m2 ->
  0 <= fst (fst (SFdiv_core_binary prec emax m1 e1 m2 e2)).
Proof.
  intros H1 H2. unfold SFdiv_core_binary.
  set (s := _ - _ - _).
  set (m' := match s with Z0 => m1 | Zpos _ => Z.shiftl m1 s | Zneg _ => 0 end).
  assert (Hm : 0 <= m').
  { subst m'. destruct s; try lia. apply Z.shiftl_nonneg. lia. }
  pose proof (Z_div_mod m' m2 ltac:(lia)) as D.
  destruct (Z.div_eucl m' m2) as [q r]. cbn [fst]. nia.
Qed.

Lemma SFdiv_finite_not_nan prec emax x sy my ey :
  x <> S754_nan -> SFdiv prec emax x (S754_finite sy my ey) <> S754_nan.
Proof.
  intros Hx. destruct x as [sx | sx | | sx mx ex]; cbn [SFdiv]; try discriminate.
  - congruence.
  - pose proof (SFdiv_core_binary_nonneg prec emax (Zpos mx) ex (Zpos my) ey
                  ltac:(lia) ltac:(lia)) as H.
    destruct (SFdiv_core_binary prec emax (Zpos mx) ex (Zpos my) ey) as [[mz ez] lz].
    cbn [fst] in H. now apply binary_round_aux_not_nan.
Qed.

(** The start [Stop()] computes is a number or an infinity, never a NaN, so
    the sign kept for a NaN is not read for it. *)
Lemma duration_double_micro_not_nan t :
  binary64 (duration_double_micro t) <> S754_nan.
Proof.
  unfold duration_double_micro, double_of_Z. cbn [binary64].
  set (y := binary_normalize 53 1024 1000 0 false). vm_compute in y. subst y.
  apply SFdiv_finite_not_nan, binary_normalize_not_nan.
Qed.

(** In fixed notation a finite double with a negative exponent is written
    as the multiple of [10^-p] nearest to it. *)
Lemma scaled_near p m k :
  (2 * (scaled p m (Zneg k) * 2 ^ Npos k) <= 2 * (Npos m * 10 ^ N.of_nat p) + 2 ^ Npos k /\
   2 * (Npos m * 10 ^ N.of_nat p) <= 2 * (scaled p m (Zneg k) * 2 ^ Npos k) + 2 ^ Npos k)%N.
Proof.
  cbn [scaled]. apply round_half_even_near.
  apply N.neq_0_lt_0, N.pow_nonzero. discriminate.
Qed.

Section Properties.

Context {thread_id : Type}.
Variable print_thread_id : thread_id -> string.
Variable openable : string -> bool.

Local Abbreviation json := (WriteProfile_json print_thread_id).
Local Abbreviation perform := (perform print_thread_id openable).
Local Abbreviation run := (run print_thread_id openable).
Local Abbreviation reachable := (reachable print_thread_id openable).

Ltac fields :=
  cbn [m_OutStream m_CurrentSession heap fs attached failbit badbit negb andb].

Ltac run_monad :=
  unfold BeginSession, EndSession, EndSessionNoLock_, WriteProfile,
    WriteHeader, WriteFooter, ofstream_open, ofstream_write, ofstream_close,
    new_session, delete_session, deref, bind, gets, modify, throw, ret,
    set_stream, set_fs, set_heap, set_session, is_open, good; fields.

(** ** The member functions, case by case *)

Lemma BeginSession_open_eq name filePath s p sess :
  m_CurrentSession s = Some p -> heap s !! p = Some sess ->
  BeginSession openable name filePath s
  = (Throw (SessionAlreadyOpenError (Session_Name sess)), s).
Proof.
  intros Hcur Hp. run_monad. rewrite Hcur. fields. rewrite Hp. reflexivity.
Qed.

Lemma BeginSession_unopenable_eq name filePath s :
  m_CurrentSession s = None -> attached (m_OutStream s) = None ->
  openable filePath = false ->
  BeginSession openable name filePath s
  = (Throw (SinkOpenError filePath),
     set_stream {| attached := None; failbit := true;
                   badbit := badbit (m_OutStream s) |} s).
Proof.
  intros Hcur Hat Hop. run_monad. rewrite Hcur. fields.
  rewrite Hat, Hop. fields. rewrite Hcur. reflexivity.
Qed.

Lemma BeginSession_openable_eq name filePath s :
  m_CurrentSession s = None -> attached (m_OutStream s) = None ->
  openable filePath = true ->
  BeginSession openable name filePath s
  = (Ok tt,
     {| m_OutStream := {| attached := Some filePath; failbit := false;
                          badbit := false |};
        m_CurrentSession := Some (fresh (dom (heap s)));
        heap := <[fresh (dom (heap s)) := {| Session_Name := name |}]> (heap s);
        fs := <[filePath := header]> (fs s) |}).
Proof.
  intros Hcur Hat Hop. run_monad. rewrite Hcur. fields.
  rewrite Hat, Hop. fields.
  rewrite lookup_insert_eq, insert_insert_eq. reflexivity.
Qed.

Lemma WriteProfile_idle_eq r s :
  m_CurrentSession s = None -> WriteProfile print_thread_id r s = (Throw NoActiveSessionError, s).
Proof. intros Hcur. run_monad. rewrite Hcur. reflexivity. Qed.

Lemma WriteProfile_open_eq r s p path :
  m_CurrentSession s = Some p -> attached (m_OutStream s) = Some path ->
  good (m_OutStream s) = true ->
  WriteProfile print_thread_id r s
  = (Ok tt, set_fs (<[path := default EmptyString (fs s !! path) +:+ json r]> (fs s)) s).
Proof.
  intros Hcur Hat Hgood. run_monad. rewrite Hcur. fields.
  unfold good in Hgood. rewrite Hgood, Hat, ?Hcur. reflexivity.
Qed.

Lemma EndSession_idle_eq s :
  m_CurrentSession s = None -> EndSession s = (Ok tt, s).
Proof. intros Hcur. run_monad. rewrite Hcur. reflexivity. Qed.

Lemma EndSession_open_eq s p sess path :
  m_CurrentSession s = Some p -> heap s !! p = Some sess ->
  attached (m_OutStream s) = Some path -> good (m_OutStream s) = true ->
  EndSession s
  = (Ok tt,
     {| m_OutStream := {| attached := None;
                          failbit := failbit (m_OutStream s);
                          badbit := badbit (m_OutStream s) |};
        m_CurrentSession := None;
        heap := delete p (heap s);
        fs := <[path := default EmptyString (fs s !! path) +:+ footer]> (fs s) |}).
Proof.
  intros Hcur Hp Hat Hgood. run_monad. rewrite Hcur. fields.
  unfold good in Hgood. rewrite Hgood, Hat. fields. rewrite Hat. fields. rewrite Hp. reflexivity.
Qed.

(** ** The invariant *)

Lemma Inv_ctor files : Inv (Profiler_ctor files).
Proof. unfold Inv. simpl. auto. Qed.

Lemma Inv_open s p :
  Inv s -> m_CurrentSession s = Some p ->
  exists sess path old,
    heap s = {[ p := sess ]} /\ heap s !! p = Some sess /\
    attached (m_OutStream s) = Some path /\ fs s !! path = Some old /\
    good (m_OutStream s) = true.
Proof.
  unfold Inv. intros HI Hcur. rewrite Hcur in HI.
  destruct HI as ([sess Hh] & (path & Hat & [old Hold]) & Hgood).
  exists sess, path, old. repeat split; try assumption.
  rewrite Hh. apply lookup_singleton_eq.
Qed.

Lemma Inv_idle s :
  Inv s -> m_CurrentSession s = None ->
  heap s = ∅ /\ attached (m_OutStream s) = None.
Proof. unfold Inv. intros HI Hcur. rewrite Hcur in HI. exact HI. Qed.

Lemma perform_Inv c s :
  Inv s -> Inv (snd (perform c s)) /\ fst (perform c s) <> Undefined.
Proof.
  intros HI. destruct (m_CurrentSession s) as [p|] eqn:Hcur.
  - destruct (Inv_open s p HI Hcur) as (sess & path & old & Hh & Hp & Hat & Hold & Hgood).
    destruct c as [name filePath | r | ]; simpl.
    + rewrite (BeginSession_open_eq _ _ _ _ _ Hcur Hp). simpl. split; [exact HI | discriminate].
    + rewrite (WriteProfile_open_eq _ _ _ _ Hcur Hat Hgood). simpl. split; [| discriminate].
      unfold Inv, set_fs. simpl. rewrite Hcur. repeat split.
      * eauto.
      * exists path. split; [exact Hat |]. rewrite lookup_insert_eq. eauto.
      * exact Hgood.
    + rewrite (EndSession_open_eq _ _ _ _ Hcur Hp Hat Hgood). simpl. split; [| discriminate].
      unfold Inv. simpl. split; [| reflexivity].
      rewrite Hh. apply delete_singleton_eq.
  - destruct (Inv_idle s HI Hcur) as [Hh Hat].
    destruct c as [name filePath | r | ]; simpl.
    + destruct (openable filePath) eqn:Hop.
      * rewrite (BeginSession_openable_eq _ _ _ Hcur Hat Hop). simpl. split; [| discriminate].
        unfold Inv. simpl. repeat split.
        -- rewrite Hh. eexists. reflexivity.
        -- exists filePath. split; [reflexivity |]. rewrite lookup_insert_eq. eauto.
      * rewrite (BeginSession_unopenable_eq _ _ _ Hcur Hat Hop). simpl. split; [| discriminate].
        unfold Inv, set_stream. simpl. rewrite Hcur. auto.
    + rewrite (WriteProfile_idle_eq _ _ Hcur). simpl. split; [exact HI | discriminate].
    + rewrite (EndSession_idle_eq _ Hcur). simpl. split; [exact HI | discriminate].
Qed.

Lemma reachable_Inv s : reachable s -> Inv s.
Proof.
  induction 1 as [files | c s Hr IH Hdef].
  - apply Inv_ctor.
  - apply perform_Inv, IH.
Qed.

(** No call on a reachable state has undefined behaviour. *)
Lemma reachable_defined c s : reachable s -> fst (perform c s) <> Undefined.
Proof. intros Hr. apply perform_Inv, reachable_Inv, Hr. Qed.

Lemma run_Inv cs s : Inv s -> Inv (snd (run cs s)).
Proof.
  revert s. induction cs as [| c cs IH]; intros s HI; simpl; [exact HI |].
  destruct (perform c s) as [r s1] eqn:Hc.
  specialize (IH s1). destruct (run cs s1) as [rs s2]. simpl in *.
  apply IH. pose proof (perform_Inv c s HI) as [H _]. rewrite Hc in H. exact H.
Qed.

Lemma Inv_open_sessions s : Inv s -> (open_sessions s <= 1)%nat.
Proof.
  unfold Inv, open_sessions. destruct (m_CurrentSession s) as [p|].
  - intros ([sess ->] & _). rewrite map_size_singleton. lia.
  - intros [-> _]. rewrite map_size_empty. lia.
Qed.

(** ** Runs of calls *)

Lemma run_app cs1 cs2 s :
  run (cs1 ++ cs2) s
  = (fst (run cs1 s) ++ fst (run cs2 (snd (run cs1 s))),
     snd (run cs2 (snd (run cs1 s)))).
Proof.
  revert s. induction cs1 as [| c cs1 IH]; intros s; simpl.
  - now destruct (run cs2 s).
  - destruct (perform c s) as [r s1]. rewrite IH.
    destruct (run cs1 s1) as [rs s2]. reflexivity.
Qed.

(** Writing a list of events into an open session appends their records. *)
Lemma run_writes rs : forall s p path old,
  m_CurrentSession s = Some p -> attached (m_OutStream s) = Some path ->
  good (m_OutStream s) = true -> fs s !! path = Some old ->
  run (map CallWrite rs) s
  = (map (fun _ => Ok tt) rs,
     set_fs (<[path := old +:+ records print_thread_id rs]> (fs s)) s).
Proof.
  induction rs as [| r rs IH]; intros s p path old Hcur Hat Hgood Hold; simpl.
  - rewrite append_nil_r, insert_id by exact Hold. now destruct s.
  - rewrite (WriteProfile_open_eq r s p path Hcur Hat Hgood).
    rewrite (IH _ p path (old +:+ json r)); try assumption.
    + unfold set_fs. fields. rewrite insert_insert_eq, append_assoc. reflexivity.
    + unfold set_fs. fields. rewrite Hold. apply lookup_insert_eq.
Qed.

Lemma run_single c s : run [c] s = ([fst (perform c s)], snd (perform c s)).
Proof. simpl. now destruct (perform c s). Qed.

(** A whole session from an idle state with a closed stream. *)
Lemma run_session_eq name filePath rs s :
  m_CurrentSession s = None -> attached (m_OutStream s) = None ->
  openable filePath = true ->
  run ([CallBegin name filePath] ++ map CallWrite rs ++ [CallEnd]) s
  = ([Ok tt] ++ map (fun _ => Ok tt) rs ++ [Ok tt],
     {| m_OutStream := {| attached := None; failbit := false; badbit := false |};
        m_CurrentSession := None;
        heap := delete (fresh (dom (heap s)))
                  (<[fresh (dom (heap s)) := {| Session_Name := name |}]> (heap s));
        fs := <[filePath := header +:+ records print_thread_id rs +:+ footer]> (fs s) |}).
Proof.
  intros Hcur Hat Hop.
  rewrite run_app, run_single.
  change (perform (CallBegin name filePath) s) with (BeginSession openable name filePath s).
  rewrite (BeginSession_openable_eq name filePath s Hcur Hat Hop).
  cbn [fst snd].
  set (p := fresh (dom (heap s))).
  set (s1 := {| m_OutStream := _; m_CurrentSession := Some p |}).
  rewrite run_app.
  rewrite (run_writes rs s1 p filePath header); try reflexivity;
    [| apply lookup_insert_eq].
  cbn [fst snd]. rewrite run_single.
  set (s2 := set_fs _ s1).
  change (perform CallEnd s2) with (EndSession s2).
  rewrite (EndSession_open_eq s2 p {| Session_Name := name |} filePath);
    try reflexivity; [| apply lookup_insert_eq].
  cbn [fst snd]. f_equal. subst s2 s1. unfold set_fs. fields.
  rewrite lookup_insert_eq, !insert_insert_eq. cbn [default from_option].
  unfold id. now rewrite append_assoc.
Qed.

(** ** The bytes of a record and of a run of records *)

(** What [WriteProfile] builds in [json] is the record in the layout. *)
Lemma WriteProfile_json_layout r : json r = format_record print_thread_id r.
Proof.
  unfold WriteProfile_json, format_record, record_layout, key, quoted,
    insert_double, insert_long, insert_char, insert_text, fixed, setprecision,
    stringstream_ctor.
  cbn [str precision]. rewrite !append_assoc. reflexivity.
Qed.

Lemma records_layout rs :
  records print_thread_id rs = format_records print_thread_id rs.
Proof.
  induction rs as [| r rs IH]; [reflexivity |].
  cbn [records format_records foldr].
  change (foldr _ EmptyString rs) with (records print_thread_id rs) at 1.
  change (foldr _ EmptyString rs) with (format_records print_thread_id rs).
  now rewrite WriteProfile_json_layout, IH.
Qed.

Lemma header_bytes : header = format_header.
Proof. reflexivity. Qed.

Lemma footer_bytes : footer = "]}".
Proof. reflexivity. Qed.

(** ** The recorder *)

(** C1. In every reachable state with a session open, [BeginSession] (any
    name, any destination) throws the already-opened exception whose message
    names the existing session, and the state it leaves is the state it
    found: the same session is current and its sink is still open. *)
Theorem BeginSession_already_open name filePath s :
  reachable s -> m_CurrentSession s <> None ->
  exists existing,
    current_session s = Some existing /\
    BeginSession openable name filePath s
    = (Throw (SessionAlreadyOpenError (Session_Name existing)), s) /\
    is_open (m_OutStream s) = true.
Proof.
  intros Hr Hcur. destruct (m_CurrentSession s) as [p|] eqn:Hp; [| congruence].
  destruct (Inv_open s p (reachable_Inv s Hr) Hp)
    as (sess & path & old & _ & Hsess & Hat & _ & _).
  exists sess. unfold current_session, is_open. rewrite Hp, Hat.
  repeat split; [exact Hsess |].
  now apply BeginSession_open_eq with (p := p).
Qed.

(** C2. A reachable state has at most one live session, and so has every
    state that any sequence of [BeginSession], [WriteProfile] and
    [EndSession] calls leads to from it. *)
Theorem at_most_one_session s cs :
  reachable s ->
  (open_sessions s <= 1)%nat /\ (open_sessions (snd (run cs s)) <= 1)%nat.
Proof.
  intros Hr. pose proof (reachable_Inv s Hr) as HI.
  split; apply Inv_open_sessions; [exact HI | now apply run_Inv].
Qed.

(** C3. In a reachable state, [WriteProfile] throws the no-session exception
    exactly when no session is open, and then changes nothing; when a session
    is open it returns and the sink's file grows by exactly the one record of
    the event, nothing else changing.  The record is spelled out: the comma,
    the object with its seven fields, [dur] the integer digits and [ts] the
    fixed text of the event. *)
Theorem WriteProfile_gating r s :
  reachable s ->
  (fst (WriteProfile print_thread_id r s) = Throw NoActiveSessionError
   <-> m_CurrentSession s = None) /\
  (m_CurrentSession s = None -> snd (WriteProfile print_thread_id r s) = s) /\
  (m_CurrentSession s <> None ->
   exists path old,
     attached (m_OutStream s) = Some path /\ fs s !! path = Some old /\
     WriteProfile print_thread_id r s
     = (Ok tt,
        set_fs (<[path := old +:+ record_layout (put_long (Elapsed r)) (Name r)
                                    (print_thread_id (ThreadId r))
                                    (put_fixed 3 (Start r))]> (fs s)) s)).
Proof.
  intros Hr. pose proof (reachable_Inv s Hr) as HI.
  destruct (m_CurrentSession s) as [p|] eqn:Hp.
  - destruct (Inv_open s p HI Hp) as (sess & path & old & _ & _ & Hat & Hold & Hgood).
    pose proof (WriteProfile_open_eq r s p path Hp Hat Hgood) as E.
    rewrite Hold, WriteProfile_json_layout in E. unfold format_record in E.
    simpl in E. rewrite E. simpl.
    repeat split; try discriminate. intros _. eauto.
  - rewrite (WriteProfile_idle_eq r s Hp). simpl.
    repeat split; try reflexivity. intros H. now contradiction H.
Qed.

(** C4, as the code has it. From a reachable state with no session open,
    [BeginSession] on an openable destination, then [WriteProfile] for each
    event of a list, then [EndSession], all return, and the destination then
    holds exactly the header of the format, the records of the events in
    call order, each with [dur] as a decimal integer, and the two closing
    characters of the footer. *)
Theorem session_framing name filePath rs s :
  reachable s -> m_CurrentSession s = None -> openable filePath = true ->
  let calls := CallBegin name filePath :: map CallWrite rs ++ [CallEnd] in
  fst (run calls s) = map (fun _ => Ok tt) calls /\
  fs (snd (run calls s)) !! filePath
  = Some (format_header +:+ format_records print_thread_id rs +:+ "]}") /\
  m_CurrentSession (snd (run calls s)) = None.
Proof.
  intros Hr Hcur Hop calls. pose proof (reachable_Inv s Hr) as HI.
  destruct (Inv_idle s HI Hcur) as [Hh Hat].
  subst calls.
  change (CallBegin name filePath :: map CallWrite rs ++ [CallEnd])
    with ([CallBegin name filePath] ++ map CallWrite rs ++ [CallEnd]).
  rewrite (run_session_eq name filePath rs s Hcur Hat Hop).
  cbn [fst snd fs m_CurrentSession].
  repeat split.
  - rewrite !map_app, map_map. reflexivity.
  - rewrite lookup_insert_eq, records_layout, header_bytes, footer_bytes.
    reflexivity.
Qed.

(** C6. [EndSession] never throws.  With no session open it returns and
    leaves the state as it found it.  With a session open (in a reachable
    state) it appends the footer, a closing square bracket and a closing
    brace, to the sink's file, closes the stream, deletes the session object
    and resets the pointer: no session is left. *)
Theorem EndSession_behaviour s :
  reachable s ->
  fst (EndSession s) = Ok tt /\
  (m_CurrentSession s = None -> snd (EndSession s) = s) /\
  (m_CurrentSession s <> None ->
   exists path old,
     attached (m_OutStream s) = Some path /\ fs s !! path = Some old /\
     fs (snd (EndSession s)) = <[path := old +:+ "]}"]> (fs s) /\
     is_open (m_OutStream (snd (EndSession s))) = false /\
     m_CurrentSession (snd (EndSession s)) = None /\
     open_sessions (snd (EndSession s)) = 0%nat).
Proof.
  intros Hr. pose proof (reachable_Inv s Hr) as HI.
  destruct (m_CurrentSession s) as [p|] eqn:Hp.
  - destruct (Inv_open s p HI Hp) as (sess & path & old & Hh & Hsess & Hat & Hold & Hgood).
    rewrite (EndSession_open_eq s p sess path Hp Hsess Hat Hgood).
    cbn [fst snd]. repeat split; try discriminate.
    intros _. exists path, old. unfold open_sessions, is_open. fields.
    rewrite Hold, Hh, delete_singleton_eq, map_size_empty, footer_bytes.
    cbn [default from_option]. unfold id. auto 10.
  - rewrite (EndSession_idle_eq s Hp). cbn [fst snd].
    repeat split. intros H. now contradiction H.
Qed.

(** C7. In a reachable state with no session open, [BeginSession] on a
    destination that cannot be opened throws the could-not-open exception;
    no session object is made, the pointer stays null, no file changes and
    the stream stays closed. *)
Theorem BeginSession_unopenable name filePath s :
  reachable s -> m_CurrentSession s = None -> openable filePath = false ->
  fst (BeginSession openable name filePath s) = Throw (SinkOpenError filePath) /\
  m_CurrentSession (snd (BeginSession openable name filePath s)) = None /\
  open_sessions (snd (BeginSession openable name filePath s)) = 0%nat /\
  fs (snd (BeginSession openable name filePath s)) = fs s /\
  is_open (m_OutStream (snd (BeginSession openable name filePath s))) = false.
Proof.
  intros Hr Hcur Hop. pose proof (reachable_Inv s Hr) as HI.
  destruct (Inv_idle s HI Hcur) as [Hh Hat].
  rewrite (BeginSession_unopenable_eq name filePath s Hcur Hat Hop).
  unfold open_sessions, is_open, set_stream. cbn [fst snd]. fields.
  rewrite Hh, map_size_empty. auto.
Qed.

(** C10. In a reachable state with a session open, [BeginSession] leaves
    every file as it was (the requested destination is neither created nor
    truncated), leaves the stream attached to the file it was attached to,
    and its outcome does not depend on the destination asked for nor on
    whether the system would let it be opened: no open is attempted. *)
Theorem BeginSession_already_open_frame name filePath s :
  reachable s -> m_CurrentSession s <> None ->
  fs (snd (BeginSession openable name filePath s)) = fs s /\
  fs (snd (BeginSession openable name filePath s)) !! filePath = fs s !! filePath /\
  attached (m_OutStream (snd (BeginSession openable name filePath s)))
  = attached (m_OutStream s) /\
  attached (m_OutStream s) <> None /\
  forall env other,
    BeginSession env name other s = BeginSession openable name filePath s.
Proof.
  intros Hr Hcur. destruct (m_CurrentSession s) as [p|] eqn:Hp; [| congruence].
  destruct (Inv_open s p (reachable_Inv s Hr) Hp)
    as (sess & path & old & _ & Hsess & Hat & _ & _).
  rewrite (BeginSession_open_eq name filePath s p sess Hp Hsess). cbn [snd].
  repeat split; [congruence |].
  intros env other. unfold BeginSession, bind, gets, deref, throw.
  rewrite Hp, Hsess. reflexivity.
Qed.

(** ** The record of an event *)

(** C5, as the code has it. The record of an event is a comma, then one
    object with the fields cat, dur, name, ph, pid, tid, ts in this order:
    cat is the constant function, name is the event name as it is, ph the
    constant X, pid the constant 0, tid the thread id as the library prints
    it.  dur is the elapsed count as a decimal integer: it has no point and
    no decimals.  ts is the start in fixed notation with precision 3, which
    has the fixed-point shape with three decimals exactly when the start is
    a finite double. *)
Theorem WriteProfile_json_fields r :
  json r
  = record_layout (put_long (Elapsed r)) (Name r)
      (print_thread_id (ThreadId r)) (put_fixed 3 (Start r)) /\
  integer_text (put_long (Elapsed r)) = true /\
  fixed_decimals 3 (put_long (Elapsed r)) = false /\
  fixed_decimals 3 (put_fixed 3 (Start r)) = is_finite (Start r).
Proof.
  repeat split.
  - unfold WriteProfile_json, record_layout, key, quoted, insert_double,
      insert_long, insert_char, insert_text, fixed, setprecision,
      stringstream_ctor.
    cbn [str precision]. rewrite !append_assoc. reflexivity.
  - apply put_long_shape.
  - apply put_long_shape.
  - apply fixed_decimals_put_fixed.
Qed.

(** ** Scoped measurements *)

Lemma wrap64_small z : int64 z -> wrap64 z = z.
Proof. unfold int64, wrap64. intros H. rewrite Z.mod_small; lia. Qed.

Lemma time_point_cast_microseconds_bounds t :
  int64 t -> - 9223372036854775 <= time_point_cast_microseconds t <= 9223372036854775.
Proof.
  unfold int64, time_point_cast_microseconds. intros [Hlo Hhi]. split.
  - change (- 9223372036854775) with (Z.quot (- 2 ^ 63) 1000).
    apply Z.quot_le_mono; lia.
  - change 9223372036854775 with (Z.quot (2 ^ 63 - 1) 1000).
    apply Z.quot_le_mono; lia.
Qed.

(** C8. The event [Stop()] submits has a non-negative [Elapsed] whenever the
    clock reading taken in [Stop()] is not earlier than the one taken by the
    constructor; the two readings may be equal.  The subtraction does not
    wrap: [Elapsed] is the difference of the two readings in whole
    microseconds. *)
Theorem Stop_elapsed_nonneg self name t0 t1 s :
  int64 t0 -> int64 t1 -> t0 <= t1 ->
  exists ev,
    fst (fst (ProfilerScope_dtor print_thread_id self
                (ProfilerScope_ctor name t0) t1 s)) = [ev] /\
    Elapsed ev = Z.quot t1 1000 - Z.quot t0 1000 /\
    0 <= Elapsed ev.
Proof.
  intros H0 H1 Hle.
  exists (Stop_result self (ProfilerScope_ctor name t0) t1).
  assert (Hq : Z.quot t0 1000 <= Z.quot t1 1000) by (apply Z.quot_le_mono; lia).
  pose proof (time_point_cast_microseconds_bounds t0 H0) as B0.
  pose proof (time_point_cast_microseconds_bounds t1 H1) as B1.
  unfold time_point_cast_microseconds in B0, B1.
  assert (HE : Elapsed (Stop_result self (ProfilerScope_ctor name t0) t1)
               = Z.quot t1 1000 - Z.quot t0 1000).
  { unfold Stop_result, time_point_cast_microseconds. cbn [Elapsed m_Start ProfilerScope_ctor].
    apply wrap64_small. unfold int64. lia. }
  repeat split.
  - unfold ProfilerScope_dtor, Stop, call_WriteProfile.
    destruct (WriteProfile print_thread_id _ s) as [[u | e |] s']; reflexivity.
  - exact HE.
  - rewrite HE. lia.
Qed.

(** C9. A block guarded by a [ProfilerScope] calls [WriteProfile] once, with
    the guard's own event, when control leaves the guarded region, however
    it leaves it: normally, by an early return, or by an exception.  The
    event comes after whatever the region passed; the recorder is left as
    that one call leaves the state the region left; control leaves the block
    the way it left the region when the call returns, and the program ends
    when it throws.  With a session open the sink's file so grows by exactly
    the one record of the event. *)
Theorem ProfilerScope_block_submits_once self name t0 t1 body s :
  snd (fst (body s)) <> Terminate ->
  let ev := Stop_result self (ProfilerScope_ctor name t0) t1 in
  ProfilerScope_block print_thread_id self name t0 t1 body s
  = (fst (fst (body s)) ++ [ev],
     match fst (WriteProfile print_thread_id ev (snd (body s))) with
     | Ok _ => snd (fst (body s))
     | _ => Terminate
     end,
     snd (WriteProfile print_thread_id ev (snd (body s)))) /\
  (reachable (snd (body s)) -> m_CurrentSession (snd (body s)) <> None ->
   exists path old,
     attached (m_OutStream (snd (body s))) = Some path /\
     fs (snd (body s)) !! path = Some old /\
     fs (snd (ProfilerScope_block print_thread_id self name t0 t1 body s)) !! path
     = Some (old +:+ record_layout (put_long (Elapsed ev)) (Name ev)
                       (print_thread_id (ThreadId ev)) (put_fixed 3 (Start ev)))).
Proof.
  intros Hexit ev.
  assert (E : ProfilerScope_block print_thread_id self name t0 t1 body s
          = (fst (fst (body s)) ++ [ev],
             match fst (WriteProfile print_thread_id ev (snd (body s))) with
             | Ok _ => snd (fst (body s))
             | _ => Terminate
             end,
             snd (WriteProfile print_thread_id ev (snd (body s))))).
  { unfold ProfilerScope_block, at_scope_exit, ProfilerScope_dtor, Stop,
      call_WriteProfile. fold ev.
    destruct (body s) as [[submitted how] s1]. cbn [fst snd] in *.
    destruct how; try congruence;
      destruct (WriteProfile print_thread_id ev s1) as [[u | e |] s2]; reflexivity. }
  split; [exact E |].
  intros Hr Hopen. rewrite E. cbn [snd].
  destruct (m_CurrentSession (snd (body s))) as [p|] eqn:Hp; [| congruence].
  destruct (Inv_open _ p (reachable_Inv _ Hr) Hp)
    as (sess & path & old & _ & _ & Hat & Hold & Hgood).
  exists path, old. repeat split; try assumption.
  rewrite (WriteProfile_open_eq ev _ p path Hp Hat Hgood), Hold.
  rewrite WriteProfile_json_layout. unfold set_fs, format_record. cbn [snd]. fields.
  apply lookup_insert_eq.
Qed.

Lemma run_cons c cs s :
  run (c :: cs) s
  = (fst (perform c s) :: fst (run cs (snd (perform c s))),
     snd (run cs (snd (perform c s)))).
Proof.
  change (run (c :: cs) s)
    with (let '(r, s1) := perform c s in
          let '(rs, s2) := run cs s1 in (r :: rs, s2)).
  destruct (perform c s) as [r s1]. cbn [fst snd]. now destruct (run cs s1).
Qed.

Lemma run_nil s : run [] s = ([], s).
Proof. reflexivity. Qed.

(** ** More on the recorder *)

(** X1. From a reachable state with no session open, [BeginSession] on an
    openable destination returns; the session it makes carries the name
    given and is the only live one; the stream is attached to the
    destination with no error bit, even if an earlier open had failed; the
    destination holds the header alone, whatever it held before, and no
    other file changes. *)
Theorem BeginSession_success name filePath s :
  reachable s -> m_CurrentSession s = None -> openable filePath = true ->
  fst (BeginSession openable name filePath s) = Ok tt /\
  current_session (snd (BeginSession openable name filePath s))
  = Some {| Session_Name := name |} /\
  open_sessions (snd (BeginSession openable name filePath s)) = 1%nat /\
  m_OutStream (snd (BeginSession openable name filePath s))
  = {| attached := Some filePath; failbit := false; badbit := false |} /\
  fs (snd (BeginSession openable name filePath s)) = <[filePath := header]> (fs s).
Proof.
  intros Hr Hcur Hop. destruct (Inv_idle s (reachable_Inv s Hr) Hcur) as [Hh Hat].
  rewrite (BeginSession_openable_eq name filePath s Hcur Hat Hop).
  unfold current_session, open_sessions. cbn [fst snd]. fields.
  rewrite lookup_insert_eq, Hh, insert_empty, map_size_singleton. auto.
Qed.

(** X2. A failed open does not poison the recorder: from a reachable state
    with no session open, [BeginSession] on an unopenable path throws, and
    the next [BeginSession], on an openable path, returns with its session
    open and a stream with no error bit. *)
Theorem BeginSession_after_failed_open n1 bad_path n2 good_path s :
  reachable s -> m_CurrentSession s = None ->
  openable bad_path = false -> openable good_path = true ->
  fst (run [CallBegin n1 bad_path; CallBegin n2 good_path] s)
  = [Throw (SinkOpenError bad_path); Ok tt] /\
  current_session (snd (run [CallBegin n1 bad_path; CallBegin n2 good_path] s))
  = Some {| Session_Name := n2 |} /\
  good (m_OutStream (snd (run [CallBegin n1 bad_path; CallBegin n2 good_path] s)))
  = true /\
  fs (snd (run [CallBegin n1 bad_path; CallBegin n2 good_path] s))
  = <[good_path := header]> (fs s).
Proof.
  intros Hr Hcur Hbad Hgood.
  destruct (Inv_idle s (reachable_Inv s Hr) Hcur) as [Hh Hat].
  rewrite !run_cons, run_nil. cbn [fst snd].
  change (perform (CallBegin n1 bad_path) s)
    with (BeginSession openable n1 bad_path s).
  rewrite (BeginSession_unopenable_eq n1 bad_path s Hcur Hat Hbad). cbn [fst snd].
  set (s1 := set_stream _ s).
  change (perform (CallBegin n2 good_path) s1)
    with (BeginSession openable n2 good_path s1).
  rewrite (BeginSession_openable_eq n2 good_path s1 Hcur eq_refl Hgood).
  unfold current_session. cbn [fst snd]. fields.
  rewrite lookup_insert_eq. auto.
Qed.

(** X3. After [EndSession] the recorder is idle, from any reachable state:
    another [EndSession] returns and changes nothing, and a [WriteProfile]
    throws the no-session exception and changes nothing, so a finished
    document is never written to again. *)
Theorem after_EndSession r s :
  reachable s ->
  EndSession (snd (EndSession s)) = (Ok tt, snd (EndSession s)) /\
  WriteProfile print_thread_id r (snd (EndSession s))
  = (Throw NoActiveSessionError, snd (EndSession s)).
Proof.
  intros Hr.
  assert (Hidle : m_CurrentSession (snd (EndSession s)) = None).
  { destruct (m_CurrentSession s) as [p|] eqn:Hp.
    - destruct (Inv_open s p (reachable_Inv s Hr) Hp)
        as (sess & path & old & _ & Hsess & Hat & _ & Hgood).
      now rewrite (EndSession_open_eq s p sess path Hp Hsess Hat Hgood).
    - now rewrite (EndSession_idle_eq s Hp). }
  split.
  - now apply EndSession_idle_eq.
  - now apply WriteProfile_idle_eq.
Qed.

(** X4. No call on a reachable state dereferences or deletes a session
    pointer that is not live, and no session object is leaked: the live
    objects are exactly the one [m_CurrentSession] points to, if any. *)
Theorem memory_safety c s :
  reachable s ->
  fst (perform c s) <> Undefined /\
  dom (heap s)
  = match m_CurrentSession s with Some p => {[ p ]} | None => ∅ end.
Proof.
  intros Hr. pose proof (reachable_Inv s Hr) as HI. split.
  - now apply perform_Inv.
  - unfold Inv in HI. destruct (m_CurrentSession s) as [p|].
    + destruct HI as ([sess ->] & _). apply dom_singleton_L.
    + destruct HI as [-> _]. apply dom_empty_L.
Qed.

(** X5. In every reachable state the stream is open exactly when a session
    is open, and while it is open the file it is attached to exists. *)
Theorem sink_lifecycle s :
  reachable s ->
  (is_open (m_OutStream s) = true <-> m_CurrentSession s <> None) /\
  (is_open (m_OutStream s) = true ->
   exists path, attached (m_OutStream s) = Some path /\ is_Some (fs s !! path)).
Proof.
  intros Hr. pose proof (reachable_Inv s Hr) as HI.
  destruct (m_CurrentSession s) as [p|] eqn:Hp.
  - destruct (Inv_open s p HI Hp) as (sess & path & old & _ & _ & Hat & Hold & Hgood).
    unfold is_open. rewrite Hat. repeat split; try congruence; eauto.
  - destruct (Inv_idle s HI Hp) as [_ Hat]. unfold is_open. rewrite Hat.
    repeat split; try congruence; try discriminate.
Qed.


(** A run with no [EndSession] in a state with a session open. *)
Lemma run_open cs : forall s p sess path old,
  m_CurrentSession s = Some p -> heap s !! p = Some sess ->
  attached (m_OutStream s) = Some path -> good (m_OutStream s) = true ->
  fs s !! path = Some old ->
  forallb (fun c => negb (is_end c)) cs = true ->
  run cs s
  = (map (open_outcome (Session_Name sess)) cs,
     set_fs (<[path := old +:+ records print_thread_id (written_events cs)]> (fs s)) s).
Proof.
  induction cs as [| c cs IH]; intros s p sess path old Hcur Hp Hat Hgood Hold Hne.
  - rewrite run_nil. cbn [map written_events flat_map records foldr].
    rewrite append_nil_r, insert_id by exact Hold. now destruct s.
  - cbn [forallb] in Hne. apply andb_true_iff in Hne as [Hc Hne].
    rewrite run_cons. destruct c as [name filePath | r |]; [| | discriminate].
    + change (perform (CallBegin name filePath) s)
        with (BeginSession openable name filePath s).
      rewrite (BeginSession_open_eq name filePath s p sess Hcur Hp). cbn [fst snd].
      rewrite (IH s p sess path old) by assumption. reflexivity.
    + change (perform (CallWrite r) s) with (WriteProfile print_thread_id r s).
      rewrite (WriteProfile_open_eq r s p path Hcur Hat Hgood). cbn [fst snd].
      rewrite Hold. cbn [default from_option]. unfold id.
      rewrite (IH _ p sess path (old +:+ json r)); try assumption.
      * unfold set_fs. fields. rewrite insert_insert_eq.
        cbn [written_events flat_map app records foldr map open_outcome].
        now rewrite append_assoc.
      * unfold set_fs. fields. apply lookup_insert_eq.
Qed.

(** X6. While a session stays open the sink holds a usable partial trace:
    after any run of [WriteProfile] and [BeginSession] calls from a reachable
    state with a session open, every [WriteProfile] has returned, every
    [BeginSession] has thrown the already-opened exception naming that
    session, the sink's file is what it was followed by the records of the
    events written, in call order, and nothing else has changed. *)
Theorem open_session_run cs s sess :
  reachable s -> current_session s = Some sess ->
  forallb (fun c => negb (is_end c)) cs = true ->
  exists path old,
    attached (m_OutStream s) = Some path /\ fs s !! path = Some old /\
    run cs s
    = (map (open_outcome (Session_Name sess)) cs,
       set_fs (<[path := old +:+ records print_thread_id (written_events cs)]> (fs s)) s).
Proof.
  intros Hr Hsess Hne. unfold current_session in Hsess.
  destruct (m_CurrentSession s) as [p|] eqn:Hp; [| discriminate].
  destruct (Inv_open s p (reachable_Inv s Hr) Hp)
    as (sess' & path & old & _ & _ & Hat & Hold & Hgood).
  exists path, old. repeat split; try assumption.
  now apply run_open with (p := p).
Qed.

(** X7. A call on a reachable state changes no file but its target: the
    destination for [BeginSession], the sink for [WriteProfile] and
    [EndSession]. *)
Theorem other_files_untouched c s q :
  reachable s -> target c s <> Some q ->
  fs (snd (perform c s)) !! q = fs s !! q.
Proof.
  intros Hr Hq. pose proof (reachable_Inv s Hr) as HI.
  destruct (m_CurrentSession s) as [p|] eqn:Hp.
  - destruct (Inv_open s p HI Hp) as (sess & path & old & _ & Hsess & Hat & _ & Hgood).
    destruct c as [name filePath | r |]; cbn [target] in Hq.
    + change (perform (CallBegin name filePath) s)
        with (BeginSession openable name filePath s).
      now rewrite (BeginSession_open_eq name filePath s p sess Hp Hsess).
    + change (perform (CallWrite r) s) with (WriteProfile print_thread_id r s).
      rewrite (WriteProfile_open_eq r s p path Hp Hat Hgood).
      unfold set_fs. cbn [snd]. fields. apply lookup_insert_ne. congruence.
    + change (perform CallEnd s) with (EndSession s).
      rewrite (EndSession_open_eq s p sess path Hp Hsess Hat Hgood).
      cbn [snd]. fields. apply lookup_insert_ne. congruence.
  - destruct (Inv_idle s HI Hp) as [_ Hat].
    destruct c as [name filePath | r |]; cbn [target] in Hq.
    + change (perform (CallBegin name filePath) s)
        with (BeginSession openable name filePath s).
      destruct (openable filePath) eqn:Hop.
      * rewrite (BeginSession_openable_eq name filePath s Hp Hat Hop).
        cbn [snd]. fields. apply lookup_insert_ne. congruence.
      * now rewrite (BeginSession_unopenable_eq name filePath s Hp Hat Hop).
    + change (perform (CallWrite r) s) with (WriteProfile print_thread_id r s).
      now rewrite (WriteProfile_idle_eq r s Hp).
    + change (perform CallEnd s) with (EndSession s).
      now rewrite (EndSession_idle_eq s Hp).
Qed.

(** X8. Two whole sessions, one after the other, from a reachable state with
    no session open: every call returns; the second destination holds the
    second session's document; the first destination, when it is another
    file, still holds the first session's document.  On the same file the
    second document replaces the first. *)
Theorem two_sessions n1 p1 rs1 n2 p2 rs2 s :
  reachable s -> m_CurrentSession s = None ->
  openable p1 = true -> openable p2 = true ->
  fst (run (session_calls n1 p1 rs1 ++ session_calls n2 p2 rs2) s)
  = map (fun _ => Ok tt) (session_calls n1 p1 rs1 ++ session_calls n2 p2 rs2) /\
  fs (snd (run (session_calls n1 p1 rs1 ++ session_calls n2 p2 rs2) s)) !! p2
  = Some (document print_thread_id rs2) /\
  (p1 <> p2 ->
   fs (snd (run (session_calls n1 p1 rs1 ++ session_calls n2 p2 rs2) s)) !! p1
   = Some (document print_thread_id rs1)).
Proof.
  intros Hr Hcur Hop1 Hop2.
  destruct (Inv_idle s (reachable_Inv s Hr) Hcur) as [_ Hat].
  rewrite run_app.
  change (session_calls n1 p1 rs1)
    with ([CallBegin n1 p1] ++ map CallWrite rs1 ++ [CallEnd]).
  change (session_calls n2 p2 rs2)
    with ([CallBegin n2 p2] ++ map CallWrite rs2 ++ [CallEnd]).
  rewrite (run_session_eq n1 p1 rs1 s Hcur Hat Hop1). cbn [fst snd].
  set (s1 := {| m_CurrentSession := None |}).
  rewrite (run_session_eq n2 p2 rs2 s1 eq_refl eq_refl Hop2). cbn [fst snd]. fields.
  unfold document. repeat split.
  - rewrite !map_app, !map_map. reflexivity.
  - apply lookup_insert_eq.
  - intros Hne. rewrite lookup_insert_ne by congruence. apply lookup_insert_eq.
Qed.

(** ** More on scoped measurements *)

Lemma Stop_result_Elapsed self name t0 t1 :
  int64 t0 -> int64 t1 ->
  Elapsed (Stop_result (thread_id := thread_id) self (ProfilerScope_ctor name t0) t1)
  = Z.quot t1 1000 - Z.quot t0 1000.
Proof.
  intros H0 H1.
  pose proof (time_point_cast_microseconds_bounds t0 H0) as B0.
  pose proof (time_point_cast_microseconds_bounds t1 H1) as B1.
  unfold time_point_cast_microseconds in B0, B1.
  unfold Stop_result, time_point_cast_microseconds.
  cbn [Elapsed m_Start ProfilerScope_ctor].
  apply wrap64_small. unfold int64. lia.
Qed.

Lemma quot_1000_bounds t : 0 <= t -> t - 1000 < 1000 * Z.quot t 1000 <= t.
Proof.
  intros Ht. rewrite Z.quot_div_nonneg by lia.
  pose proof (Z.div_mod t 1000 ltac:(lia)) as E.
  pose proof (Z.mod_pos_bound t 1000 ltac:(lia)) as B. lia.
Qed.

(** X9. Each end of a measurement is truncated to whole microseconds before
    the subtraction, so for clock readings that are not negative the
    [Elapsed] of the event, in nanoseconds, is within one microsecond of the
    time that passed, on either side: it may exceed it. *)
Theorem Elapsed_quantization self name t0 t1 :
  int64 t0 -> int64 t1 -> 0 <= t0 -> t0 <= t1 ->
  (t1 - t0) - 1000
  < 1000 * Elapsed (Stop_result (thread_id := thread_id) self
                      (ProfilerScope_ctor name t0) t1)
  < (t1 - t0) + 1000.
Proof.
  intros H0 H1 Hpos Hle. rewrite (Stop_result_Elapsed self name t0 t1 H0 H1).
  pose proof (quot_1000_bounds t0 Hpos). pose proof (quot_1000_bounds t1 ltac:(lia)).
  lia.
Qed.

(** X10. A measurement nested in another never shows a longer [Elapsed]:
    if the inner guard is made no earlier and stopped no later than the
    outer one, its event's [Elapsed] is at most the outer event's. *)
Theorem nested_Elapsed_le self outer inner t_outer t_inner u_inner u_outer :
  int64 t_outer -> int64 t_inner -> int64 u_inner -> int64 u_outer ->
  t_outer <= t_inner -> u_inner <= u_outer ->
  Elapsed (Stop_result (thread_id := thread_id) self
             (ProfilerScope_ctor inner t_inner) u_inner)
  <= Elapsed (Stop_result (thread_id := thread_id) self
                (ProfilerScope_ctor outer t_outer) u_outer).
Proof.
  intros H1 H2 H3 H4 Ht Hu.
  rewrite !Stop_result_Elapsed by assumption.
  assert (Z.quot t_outer 1000 <= Z.quot t_inner 1000) by (apply Z.quot_le_mono; lia).
  assert (Z.quot u_inner 1000 <= Z.quot u_outer 1000) by (apply Z.quot_le_mono; lia).
  lia.
Qed.

(** X11. A guard destroyed while no session is open ends the program: the
    exception [WriteProfile] throws leaves a destructor.  Nothing is written
    and the recorder is left as the region left it. *)
Theorem ProfilerScope_block_no_session self name t0 t1 body s :
  snd (fst (body s)) <> Terminate -> m_CurrentSession (snd (body s)) = None ->
  ProfilerScope_block print_thread_id self name t0 t1 body s
  = (fst (fst (body s)) ++ [Stop_result self (ProfilerScope_ctor name t0) t1],
     Terminate, snd (body s)).
Proof.
  intros Hexit Hidle.
  unfold ProfilerScope_block, at_scope_exit, ProfilerScope_dtor, Stop,
    call_WriteProfile.
  destruct (body s) as [[submitted how] s1]. cbn [fst snd] in *.
  rewrite (WriteProfile_idle_eq _ s1 Hidle).
  destruct how; try congruence; reflexivity.
Qed.

(** X12. A guard destroyed while a session is open (the region leaving a
    reachable state) appends the record of its event to the sink's file,
    changes nothing else, and lets control leave the block the way it left
    the region. *)
Theorem ProfilerScope_block_open self name t0 t1 body s :
  snd (fst (body s)) <> Terminate ->
  reachable (snd (body s)) -> m_CurrentSession (snd (body s)) <> None ->
  exists path old,
    attached (m_OutStream (snd (body s))) = Some path /\
    fs (snd (body s)) !! path = Some old /\
    ProfilerScope_block print_thread_id self name t0 t1 body s
    = (fst (fst (body s)) ++ [Stop_result self (ProfilerScope_ctor name t0) t1],
       snd (fst (body s)),
       set_fs (<[path := old +:+ json (Stop_result self (ProfilerScope_ctor name t0) t1)]>
                 (fs (snd (body s)))) (snd (body s))).
Proof.
  intros Hexit Hr Hopen.
  unfold ProfilerScope_block, at_scope_exit, ProfilerScope_dtor, Stop,
    call_WriteProfile.
  destruct (body s) as [[submitted how] s1]. cbn [fst snd] in *.
  destruct (m_CurrentSession s1) as [p|] eqn:Hp; [| congruence].
  destruct (Inv_open s1 p (reachable_Inv s1 Hr) Hp)
    as (sess & path & old & _ & _ & Hat & Hold & Hgood).
  exists path, old. repeat split; try assumption.
  rewrite (WriteProfile_open_eq _ s1 p path Hp Hat Hgood), Hold.
  cbn [default from_option]. unfold id.
  destruct how; try congruence; reflexivity.
Qed.

(** X14. Records appear in the order the guards are destroyed, inner
    before outer: a session that holds one guarded block nested in another
    leaves the header, the inner event's record, the outer event's record
    and the footer. *)
Theorem nested_scopes_document self n filePath outer inner
    t_outer t_inner u_inner u_outer s :
  reachable s -> m_CurrentSession s = None -> openable filePath = true ->
  let ev_inner := Stop_result self (ProfilerScope_ctor inner t_inner) u_inner in
  let ev_outer := Stop_result self (ProfilerScope_ctor outer t_outer) u_outer in
  let nested :=
    ProfilerScope_block print_thread_id self outer t_outer u_outer
      (ProfilerScope_block print_thread_id self inner t_inner u_inner
         empty_region) in
  let s1 := snd (BeginSession openable n filePath s) in
  fst (nested s1) = ([ev_inner; ev_outer], Normal) /\
  fs (snd (EndSession (snd (nested s1)))) !! filePath
  = Some (document print_thread_id [ev_inner; ev_outer]).
Proof.
  intros Hr Hcur Hop ev_inner ev_outer nested s1.
  destruct (Inv_idle s (reachable_Inv s Hr) Hcur) as [_ Hat].
  subst s1. rewrite (BeginSession_openable_eq n filePath s Hcur Hat Hop). cbn [snd].
  set (p := fresh (dom (heap s))).
  set (s1 := {| m_CurrentSession := Some p |}).
  assert (W : forall r old s', m_CurrentSession s' = Some p ->
            m_OutStream s' = {| attached := Some filePath; failbit := false; badbit := false |} ->
            fs s' !! filePath = Some old ->
            WriteProfile print_thread_id r s'
            = (Ok tt, set_fs (<[filePath := old +:+ json r]> (fs s')) s')).
  { intros r old s' Hc Hs Hold.
    rewrite (WriteProfile_open_eq r s' p filePath Hc); rewrite ?Hs; try reflexivity.
    now rewrite Hold. }
  assert (E : nested s1
          = ([ev_inner; ev_outer], Normal,
             set_fs (<[filePath := header +:+ json ev_inner +:+ json ev_outer]> (fs s)) s1)).
  { subst nested.
    unfold ProfilerScope_block, at_scope_exit, ProfilerScope_dtor, Stop,
      call_WriteProfile, empty_region.
    fold ev_inner ev_outer.
    rewrite (W ev_inner header s1 eq_refl eq_refl) by apply lookup_insert_eq.
    set (s2 := set_fs _ s1).
    rewrite (W ev_outer (header +:+ json ev_inner) s2 eq_refl eq_refl)
      by apply lookup_insert_eq.
    cbn [app]. f_equal. subst s2 s1. unfold set_fs. fields.
    now rewrite !insert_insert_eq, append_assoc. }
  rewrite E. cbn [fst snd]. split; [reflexivity |].
  set (s3 := set_fs _ s1).
  rewrite (EndSession_open_eq s3 p {| Session_Name := n |} filePath);
    try reflexivity; [| apply lookup_insert_eq].
  cbn [snd]. fields. rewrite lookup_insert_eq.
  subst s3 s1. unfold set_fs. fields. rewrite lookup_insert_eq.
  cbn [default from_option]. unfold id, document.
  cbn [records foldr]. now rewrite append_nil_r, !append_assoc.
Qed.

(** ** The singleton *)





End Properties.

(** * The theorems at concrete inputs *)

Lemma example_open_reachable :
  reachable print_native_handle example_openable example_open.
Proof.
  apply reachable_call; [apply reachable_ctor | vm_compute; discriminate].
Defined.

Lemma BeginSession_already_open_witness :
  exists existing,
    current_session example_open = Some existing /\
    BeginSession example_openable "T" "other.json" example_open
    = (Throw (SessionAlreadyOpenError (Session_Name existing)), example_open) /\
    is_open (m_OutStream example_open) = true.
Proof.
  apply (BeginSession_already_open print_native_handle example_openable
           "T" "other.json" example_open).
  - exact example_open_reachable.
  - vm_compute. discriminate.
Defined.

Lemma at_most_one_session_witness :
  (open_sessions example_open <= 1)%nat /\
  (open_sessions
     (snd (run print_native_handle example_openable
             [CallBegin "T" "other.json"; CallWrite example_event; CallEnd;
              CallBegin "U" "third.json"; CallBegin "V" "fourth.json"]
             example_open)) <= 1)%nat.
Proof.
  apply (at_most_one_session print_native_handle example_openable example_open).
  exact example_open_reachable.
Defined.

Lemma WriteProfile_gating_witness :
  (fst (WriteProfile print_native_handle example_event example_open)
   = Throw NoActiveSessionError
   <-> m_CurrentSession example_open = None) /\
  (m_CurrentSession example_open = None ->
   snd (WriteProfile print_native_handle example_event example_open) = example_open) /\
  (m_CurrentSession example_open <> None ->
   exists path old,
     attached (m_OutStream example_open) = Some path /\
     fs example_open !! path = Some old /\
     WriteProfile print_native_handle example_event example_open
     = (Ok tt,
        set_fs (<[path := old +:+ record_layout (put_long (Elapsed example_event))
                                    (Name example_event)
                                    (print_native_handle (ThreadId example_event))
                                    (put_fixed 3 (Start example_event))]>
                  (fs example_open)) example_open)).
Proof.
  apply (WriteProfile_gating print_native_handle example_openable
           example_event example_open).
  exact example_open_reachable.
Defined.

Lemma session_framing_witness :
  let calls := CallBegin "S" "out.json"
               :: map CallWrite [example_event; example_event'] ++ [CallEnd] in
  fst (run print_native_handle example_openable calls example_idle)
  = map (fun _ => Ok tt) calls /\
  fs (snd (run print_native_handle example_openable calls example_idle))
    !! "out.json"
  = Some (format_header
          +:+ format_records print_native_handle [example_event; example_event']
          +:+ "]}") /\
  m_CurrentSession (snd (run print_native_handle example_openable calls example_idle))
  = None.
Proof.
  apply (session_framing print_native_handle example_openable "S" "out.json"
           [example_event; example_event'] example_idle).
  - apply reachable_ctor.
  - reflexivity.
  - reflexivity.
Defined.

Lemma EndSession_behaviour_witness :
  fst (EndSession example_open) = Ok tt /\
  (m_CurrentSession example_open = None -> snd (EndSession example_open) = example_open) /\
  (m_CurrentSession example_open <> None ->
   exists path old,
     attached (m_OutStream example_open) = Some path /\
     fs example_open !! path = Some old /\
     fs (snd (EndSession example_open)) = <[path := old +:+ "]}"]> (fs example_open) /\
     is_open (m_OutStream (snd (EndSession example_open))) = false /\
     m_CurrentSession (snd (EndSession example_open)) = None /\
     open_sessions (snd (EndSession example_open)) = 0%nat).
Proof.
  apply (EndSession_behaviour print_native_handle example_openable example_open).
  exact example_open_reachable.
Defined.

Lemma BeginSession_unopenable_witness :
  fst (BeginSession example_openable "S" "/no/such/dir/out.json" example_idle)
  = Throw (SinkOpenError "/no/such/dir/out.json") /\
  m_CurrentSession
    (snd (BeginSession example_openable "S" "/no/such/dir/out.json" example_idle))
  = None /\
  open_sessions
    (snd (BeginSession example_openable "S" "/no/such/dir/out.json" example_idle))
  = 0%nat /\
  fs (snd (BeginSession example_openable "S" "/no/such/dir/out.json" example_idle))
  = fs example_idle /\
  is_open (m_OutStream
             (snd (BeginSession example_openable "S" "/no/such/dir/out.json"
                     example_idle)))
  = false.
Proof.
  apply (BeginSession_unopenable (thread_id := N) print_native_handle
           example_openable "S" "/no/such/dir/out.json" example_idle).
  - apply reachable_ctor.
  - reflexivity.
  - reflexivity.
Defined.

Lemma Stop_elapsed_nonneg_witness :
  exists ev,
    fst (fst (ProfilerScope_dtor print_native_handle 7%N
                (ProfilerScope_ctor "work" 1000000) 1005999 example_open)) = [ev] /\
    Elapsed ev = Z.quot 1005999 1000 - Z.quot 1000000 1000 /\
    0 <= Elapsed ev.
Proof.
  apply (Stop_elapsed_nonneg print_native_handle 7%N "work" 1000000 1005999
           example_open).
  - unfold int64. lia.
  - unfold int64. lia.
  - lia.
Defined.

Lemma ProfilerScope_block_submits_once_witness :
  let ev := Stop_result 7%N (ProfilerScope_ctor "work" 1000000) 1005999 in
  ProfilerScope_block print_native_handle 7%N "work" 1000000 1005999
    example_throwing_region example_open
  = (fst (fst (example_throwing_region example_open)) ++ [ev],
     match fst (WriteProfile print_native_handle ev
                  (snd (example_throwing_region example_open))) with
     | Ok _ => snd (fst (example_throwing_region example_open))
     | _ => Terminate
     end,
     snd (WriteProfile print_native_handle ev
            (snd (example_throwing_region example_open)))) /\
  (reachable print_native_handle example_openable
     (snd (example_throwing_region example_open)) ->
   m_CurrentSession (snd (example_throwing_region example_open)) <> None ->
   exists path old,
     attached (m_OutStream (snd (example_throwing_region example_open))) = Some path /\
     fs (snd (example_throwing_region example_open)) !! path = Some old /\
     fs (snd (ProfilerScope_block print_native_handle 7%N "work" 1000000 1005999
                example_throwing_region example_open)) !! path
     = Some (old +:+ record_layout (put_long (Elapsed ev)) (Name ev)
                       (print_native_handle (ThreadId ev)) (put_fixed 3 (Start ev)))).
Proof.
  apply (ProfilerScope_block_submits_once print_native_handle example_openable
           7%N "work" 1000000 1005999 example_throwing_region example_open).
  simpl. discriminate.
Defined.

Lemma BeginSession_already_open_frame_witness :
  fs (snd (BeginSession example_openable "T" "other.json" example_open))
  = fs example_open /\
  fs (snd (BeginSession example_openable "T" "other.json" example_open))
    !! "other.json"
  = fs example_open !! "other.json" /\
  attached (m_OutStream (snd (BeginSession example_openable "T" "other.json"
                                example_open)))
  = attached (m_OutStream example_open) /\
  attached (m_OutStream example_open) <> None /\
  forall env other,
    BeginSession env "T" other example_open
    = BeginSession example_openable "T" "other.json" example_open.
Proof.
  apply (BeginSession_already_open_frame print_native_handle example_openable
           "T" "other.json" example_open).
  - exact example_open_reachable.
  - vm_compute. discriminate.
Defined.

(** C5, as the specification words it, fails: for an event of 5000
    microseconds the code writes the digits 5000 for dur, where fixed-point
    with three decimals is 5000.000; and for an event whose start is the
    double infinity it writes the word inf for ts. *)
Lemma dur_is_not_fixed_point :
  WriteProfile_json print_native_handle example_event
  = record_layout "5000" "work" "7" "1234.567" /\
  spec_json print_native_handle example_event
  = record_layout "5000.000" "work" "7" "1234.567" /\
  String.eqb (WriteProfile_json print_native_handle example_event)
             (spec_json print_native_handle example_event) = false /\
  fixed_decimals 3 (put_long (Elapsed example_event)) = false /\
  WriteProfile_json print_native_handle example_event_inf
  = record_layout "1" "late" "7" "inf" /\
  fixed_decimals 3 (put_fixed 3 (Start example_event_inf)) = false.
Proof. repeat split; vm_compute; reflexivity. Qed.

(** C4, as the specification words it, fails: the document a session with
    one event of 5000 microseconds leaves has the digits 5000 for dur, so it
    is not the document of the format, whose dur is 5000.000. *)
Lemma session_document_not_in_format :
  let calls := session_calls "S" "out.json" [example_event] in
  let written :=
    default EmptyString
      (fs (snd (run print_native_handle example_openable calls example_idle))
         !! "out.json") in
  written
  = format_header +:+ record_layout "5000" "work" "7" "1234.567" +:+ "]}" /\
  spec_document print_native_handle [example_event]
  = format_header +:+ record_layout "5000.000" "work" "7" "1234.567" +:+ "]}" /\
  String.eqb written (spec_document print_native_handle [example_event]) = false.
Proof. repeat split; vm_compute; reflexivity. Qed.

(** * More theorems at concrete inputs *)

Lemma BeginSession_success_witness :
  let s' := snd (BeginSession example_openable "S" "out.json" example_idle) in
  fst (BeginSession example_openable "S" "out.json" example_idle) = Ok tt /\
  current_session s' = Some {| Session_Name := "S" |} /\
  open_sessions s' = 1%nat /\
  m_OutStream s'
  = {| attached := Some "out.json"; failbit := false; badbit := false |} /\
  fs s' = <["out.json" := header]> (fs example_idle).
Proof.
  apply (BeginSession_success (thread_id := N) print_native_handle
           example_openable "S" "out.json" example_idle).
  - apply reachable_ctor.
  - reflexivity.
  - reflexivity.
Defined.

Lemma BeginSession_after_failed_open_witness :
  let cs := [CallBegin "S" "/no/such/dir/out.json"; CallBegin "T" "out.json"] in
  fst (run print_native_handle example_openable cs example_idle)
  = [Throw (SinkOpenError "/no/such/dir/out.json"); Ok tt] /\
  current_session (snd (run print_native_handle example_openable cs example_idle))
  = Some {| Session_Name := "T" |} /\
  good (m_OutStream (snd (run print_native_handle example_openable cs example_idle)))
  = true /\
  fs (snd (run print_native_handle example_openable cs example_idle))
  = <["out.json" := header]> (fs example_idle).
Proof.
  apply (BeginSession_after_failed_open print_native_handle example_openable
           "S" "/no/such/dir/out.json" "T" "out.json" example_idle).
  - apply reachable_ctor.
  - reflexivity.
  - reflexivity.
  - reflexivity.
Defined.

Lemma after_EndSession_witness :
  EndSession (snd (EndSession example_open)) = (Ok tt, snd (EndSession example_open)) /\
  WriteProfile print_native_handle example_event (snd (EndSession example_open))
  = (Throw NoActiveSessionError, snd (EndSession example_open)).
Proof.
  apply (after_EndSession print_native_handle example_openable example_event
           example_open).
  exact example_open_reachable.
Defined.

Lemma memory_safety_witness :
  fst (perform print_native_handle example_openable (CallBegin "T" "other.json")
         example_open) <> Undefined /\
  dom (heap example_open)
  = match m_CurrentSession example_open with Some p => {[ p ]} | None => ∅ end.
Proof.
  apply (memory_safety print_native_handle example_openable
           (CallBegin "T" "other.json") example_open).
  exact example_open_reachable.
Defined.

Lemma sink_lifecycle_witness :
  (is_open (m_OutStream example_open) = true <-> m_CurrentSession example_open <> None) /\
  (is_open (m_OutStream example_open) = true ->
   exists path, attached (m_OutStream example_open) = Some path /\
                is_Some (fs example_open !! path)).
Proof.
  apply (sink_lifecycle print_native_handle example_openable example_open).
  exact example_open_reachable.
Defined.

Lemma open_session_run_witness :
  let cs := [CallWrite example_event; CallBegin "T" "other.json";
             CallWrite example_event'] in
  exists path old,
    attached (m_OutStream example_open) = Some path /\
    fs example_open !! path = Some old /\
    run print_native_handle example_openable cs example_open
    = (map (open_outcome "S") cs,
       set_fs (<[path := old +:+ records print_native_handle (written_events cs)]>
                 (fs example_open)) example_open).
Proof.
  apply (open_session_run print_native_handle example_openable
           [CallWrite example_event; CallBegin "T" "other.json";
            CallWrite example_event']
           example_open {| Session_Name := "S" |}).
  - exact example_open_reachable.
  - reflexivity.
  - reflexivity.
Defined.

Lemma other_files_untouched_witness :
  fs (snd (perform print_native_handle example_openable (CallWrite example_event)
             example_open)) !! "other.json"
  = fs example_open !! "other.json".
Proof.
  apply (other_files_untouched print_native_handle example_openable
           (CallWrite example_event) example_open "other.json").
  - exact example_open_reachable.
  - vm_compute. discriminate.
Defined.

Lemma two_sessions_witness :
  let cs := session_calls "A" "a.json" [example_event]
            ++ session_calls "B" "b.json" [example_event'] in
  fst (run print_native_handle example_openable cs example_idle)
  = map (fun _ => Ok tt) cs /\
  fs (snd (run print_native_handle example_openable cs example_idle)) !! "b.json"
  = Some (document print_native_handle [example_event']) /\
  ("a.json" <> "b.json" ->
   fs (snd (run print_native_handle example_openable cs example_idle)) !! "a.json"
   = Some (document print_native_handle [example_event])).
Proof.
  apply (two_sessions print_native_handle example_openable
           "A" "a.json" [example_event] "B" "b.json" [example_event']
           example_idle).
  - apply reachable_ctor.
  - reflexivity.
  - reflexivity.
  - reflexivity.
Defined.

Lemma Elapsed_quantization_witness :
  (1000000 - 999999) - 1000
  < 1000 * Elapsed (Stop_result 7%N (ProfilerScope_ctor "work" 999999) 1000000)
  < (1000000 - 999999) + 1000.
Proof.
  apply (Elapsed_quantization 7%N "work" 999999 1000000).
  - unfold int64. lia.
  - unfold int64. lia.
  - lia.
  - lia.
Defined.

Lemma nested_Elapsed_le_witness :
  Elapsed (Stop_result 7%N (ProfilerScope_ctor "inner" 1000999) 1001000)
  <= Elapsed (Stop_result 7%N (ProfilerScope_ctor "outer" 1000000) 1001000).
Proof.
  apply (nested_Elapsed_le 7%N "outer" "inner" 1000000 1000999 1001000 1001000).
  - unfold int64. lia.
  - unfold int64. lia.
  - unfold int64. lia.
  - unfold int64. lia.
  - lia.
  - lia.
Defined.

Lemma ProfilerScope_block_no_session_witness :
  ProfilerScope_block print_native_handle 7%N "work" 1000000 1005999
    example_throwing_region example_idle
  = (fst (fst (example_throwing_region example_idle))
     ++ [Stop_result 7%N (ProfilerScope_ctor "work" 1000000) 1005999],
     Terminate, snd (example_throwing_region example_idle)).
Proof.
  apply (ProfilerScope_block_no_session print_native_handle 7%N "work"
           1000000 1005999 example_throwing_region example_idle).
  - simpl. discriminate.
  - reflexivity.
Defined.

Lemma ProfilerScope_block_open_witness :
  let ev := Stop_result 7%N (ProfilerScope_ctor "work" 1000000) 1005999 in
  exists path old,
    attached (m_OutStream (snd (example_throwing_region example_open))) = Some path /\
    fs (snd (example_throwing_region example_open)) !! path = Some old /\
    ProfilerScope_block print_native_handle 7%N "work" 1000000 1005999
      example_throwing_region example_open
    = (fst (fst (example_throwing_region example_open)) ++ [ev],
       snd (fst (example_throwing_region example_open)),
       set_fs (<[path := old +:+ WriteProfile_json print_native_handle ev]>
                 (fs (snd (example_throwing_region example_open))))
         (snd (example_throwing_region example_open))).
Proof.
  apply (ProfilerScope_block_open print_native_handle example_openable 7%N "work"
           1000000 1005999 example_throwing_region example_open).
  - simpl. discriminate.
  - exact example_open_reachable.
  - vm_compute. discriminate.
Defined.

Lemma nested_scopes_document_witness :
  let ev_inner := Stop_result 7%N (ProfilerScope_ctor "inner" 1000999) 1001000 in
  let ev_outer := Stop_result 7%N (ProfilerScope_ctor "outer" 1000000) 1002000 in
  let nested :=
    ProfilerScope_block print_native_handle 7%N "outer" 1000000 1002000
      (ProfilerScope_block print_native_handle 7%N "inner" 1000999 1001000
         empty_region) in
  let s1 := snd (BeginSession example_openable "S" "out.json" example_idle) in
  fst (nested s1) = ([ev_inner; ev_outer], Normal) /\
  fs (snd (EndSession (snd (nested s1)))) !! "out.json"
  = Some (document print_native_handle [ev_inner; ev_outer]).
Proof.
  apply (nested_scopes_document print_native_handle example_openable 7%N
           "S" "out.json" "outer" "inner" 1000000 1000999 1001000 1002000
           example_idle).
  - apply reachable_ctor.
  - reflexivity.
  - reflexivity.
Defined.
